(** * PDF_image_extract: a shallow embedding of [PDF_image_extract.py]

    The script walks the pages of a PDF, looks at every XObject of subtype
    [/Image], resolves its colour space to a PIL mode, and writes the image
    to a file: Flate data through PIL, DCT and JPX data verbatim, CCITT fax
    data behind a synthesized TIFF header.

    The embedding keeps the shape of the script: PyPDF2 objects are a small
    inductive type, Python exceptions are values of [exn], and the body of
    [extract_images] runs in a state-and-exception monad over the files
    written and the lines printed. *)

From Stdlib Require Import ZArith List Bool String Ascii Lia.
From Stdlib Require Import Strings.Byte DecimalString DecimalNat.
Import ListNotations.

Local Open Scope string_scope.
Local Open Scope list_scope.
Local Open Scope Z_scope.

(** ** Exceptions and results *)

Inductive exn : Type :=
| KeyError
| TypeError
| ValueError
| IndexError
| AttributeError
| NameError
| IOError
| struct_error.

Inductive result (A : Type) : Type :=
| Ok (a : A)
| Raise (e : exn).

Arguments Ok {A} a.
Arguments Raise {A} e.

Definition rbind {A B : Type} (r : result A) (k : A -> result B) : result B :=
  match r with
  | Ok a => k a
  | Raise e => Raise e
  end.

Declare Scope result_scope.
Delimit Scope result_scope with result.
Notation "x <- r ;; k" := (rbind r (fun x => k))
  (at level 61, r at next level, right associativity) : result_scope.

(** ** Bytes *)

Module Bytes.

Definition of_Z (z : Z) : byte :=
  match Byte.of_N (Z.to_N (z mod 256)) with
  | Some b => b
  | None => x00
  end.

Definition to_Z (b : byte) : Z := Z.of_N (Byte.to_N b).

(** The [k] low bytes of [v], least significant first. *)
Fixpoint le_bytes (k : nat) (v : Z) : list byte :=
  match k with
  | O => []
  | S k' => of_Z v :: le_bytes k' (v / 256)
  end.

(** The unsigned number a little-endian byte string stands for. *)
Fixpoint le_value (bs : list byte) : Z :=
  match bs with
  | [] => 0
  | b :: bs' => to_Z b + 256 * le_value bs'
  end.

Definition slice (off len : nat) (bs : list byte) : list byte :=
  firstn len (skipn off bs).

Definition read_u16 (off : nat) (bs : list byte) : Z :=
  le_value (slice off 2 bs).

Definition read_u32 (off : nat) (bs : list byte) : Z :=
  le_value (slice off 4 bs).

End Bytes.

(** ** [struct.pack] for the format characters the script uses

    The format string starts with ['<']: little-endian, standard sizes, no
    padding.  ['2s'] is a two-byte string, ['h'] a signed 16-bit integer and
    ['l'] a signed 32-bit integer; an integer outside the range of its field
    raises [struct.error]. *)

Module Struct.

Inductive fmt : Type :=
| F2s   (* '2s' *)
| Fh    (* 'h'  *)
| Fl.   (* 'l'  *)

Inductive arg : Type :=
| ABytes (b : list byte)
| AInt (v : Z)
| AOther.   (* a value that is neither bytes nor an integer *)

Definition size_of (f : fmt) : nat :=
  match f with
  | F2s => 2
  | Fh => 2
  | Fl => 4
  end.

Fixpoint calcsize (fs : list fmt) : nat :=
  match fs with
  | [] => 0
  | f :: fs' => size_of f + calcsize fs'
  end.

(** ['2s'] truncates a longer string and pads a shorter one with zero
    bytes. *)
Definition pack_2s (b : list byte) : list byte :=
  firstn 2 (b ++ [x00; x00]).

(** A value fits the signed 16-bit field of ['h']. *)
Definition fits_h (v : Z) : bool :=
  (-32768 <=? v) && (v <=? 32767).

(** A value fits the signed 32-bit field of ['l']. *)
Definition fits_l (v : Z) : bool :=
  (-2147483648 <=? v) && (v <=? 2147483647).

Definition pack_h (v : Z) : result (list byte) :=
  if fits_h v then Ok (Bytes.le_bytes 2 v) else Raise struct_error.

Definition pack_l (v : Z) : result (list byte) :=
  if fits_l v then Ok (Bytes.le_bytes 4 v) else Raise struct_error.

Definition pack_one (f : fmt) (a : arg) : result (list byte) :=
  match f, a with
  | F2s, ABytes b => Ok (pack_2s b)
  | Fh, AInt v => pack_h v
  | Fl, AInt v => pack_l v
  | _, _ => Raise struct_error
  end.

Fixpoint pack (fs : list fmt) (args : list arg) : result (list byte) :=
  match fs, args with
  | [], [] => Ok []
  | f :: fs', a :: args' =>
      (b <- pack_one f a ;;
       bs <- pack fs' args' ;;
       Ok (b ++ bs))%result
  | _, _ => Raise struct_error
  end.

End Struct.

(** ** [tiff_header_for_CCITT] *)

Fixpoint repeat_fmt (n : nat) (fs : list Struct.fmt) : list Struct.fmt :=
  match n with
  | O => []
  | S n' => fs ++ repeat_fmt n' fs
  end.

(** ['<' + '2s' + 'h' + 'l' + 'h' + 'hhll' * 8 + 'h'] *)
Definition tiff_header_struct : list Struct.fmt :=
  [Struct.F2s; Struct.Fh; Struct.Fl; Struct.Fh]
    ++ repeat_fmt 8 [Struct.Fh; Struct.Fh; Struct.Fl; Struct.Fl]
    ++ [Struct.Fh].

Definition tiff_header_args (width height img_size CCITT_group : Struct.arg)
  : list Struct.arg :=
  let i := Struct.AInt in
  [Struct.ABytes [x49; x49];                     (* b'II' *)
   i 42;                                         (* Version number *)
   i 8;                                          (* Offset to first IFD *)
   i 8;                                          (* Number of tags in IFD *)
   i 256; i 4; i 1; width;                       (* ImageWidth *)
   i 257; i 4; i 1; height;                      (* ImageLength *)
   i 258; i 3; i 1; i 1;                         (* BitsPerSample *)
   i 259; i 3; i 1; CCITT_group;                 (* Compression *)
   i 262; i 3; i 1; i 0;                         (* Threshholding *)
   i 273; i 4; i 1;
     i (Z.of_nat (Struct.calcsize tiff_header_struct));   (* StripOffsets *)
   i 278; i 4; i 1; height;                      (* RowsPerStrip *)
   i 279; i 4; i 1; img_size;                    (* StripByteCounts *)
   i 0].                                         (* last IFD *)

Definition tiff_header_for_CCITT_args
  (width height img_size CCITT_group : Struct.arg) : result (list byte) :=
  Struct.pack tiff_header_struct
    (tiff_header_args width height img_size CCITT_group).

(** The function on integer arguments. *)
Definition tiff_header_for_CCITT (width height img_size CCITT_group : Z)
  : result (list byte) :=
  tiff_header_for_CCITT_args (Struct.AInt width) (Struct.AInt height)
    (Struct.AInt img_size) (Struct.AInt CCITT_group).

(** ** Reading a header back

    A reader for the fields the header holds, used to state what the header
    encodes: the byte-order mark, the version, the offset of the directory,
    the directory entries found at that offset, and the two bytes after the
    last entry. *)

Record ifd_entry : Type := {
  tag : Z;
  typ : Z;
  count : Z;
  value : Z
}.

Record tiff_header : Type := {
  byte_order : list byte;
  version : Z;
  ifd_offset : Z;
  ifd : list ifd_entry;
  next_ifd : Z
}.

Definition read_entry (off : nat) (bs : list byte) : ifd_entry :=
  {| tag := Bytes.read_u16 off bs;
     typ := Bytes.read_u16 (off + 2) bs;
     count := Bytes.read_u32 (off + 4) bs;
     value := Bytes.read_u32 (off + 8) bs |}.

Fixpoint read_entries (n off : nat) (bs : list byte) : list ifd_entry :=
  match n with
  | O => []
  | S n' => read_entry off bs :: read_entries n' (off + 12) bs
  end.

Definition parse_tiff_header (bs : list byte) : tiff_header :=
  let off := Z.to_nat (Bytes.read_u32 4 bs) in
  let n := Z.to_nat (Bytes.read_u16 off bs) in
  {| byte_order := Bytes.slice 0 2 bs;
     version := Bytes.read_u16 2 bs;
     ifd_offset := Bytes.read_u32 4 bs;
     ifd := read_entries n (off + 2) bs;
     next_ifd := Bytes.read_u16 (off + 2 + 12 * n) bs |}.

(** The bytes [struct.pack] yields for the header when every argument fits
    its field, field by field. *)
Definition fax_header_bytes (width height img_size CCITT_group : Z)
  : list byte :=
  let h := Bytes.le_bytes 2 in
  let l := Bytes.le_bytes 4 in
  [x49; x49] ++ h 42 ++ l 8 ++ h 8
    ++ h 256 ++ h 4 ++ l 1 ++ l width
    ++ h 257 ++ h 4 ++ l 1 ++ l height
    ++ h 258 ++ h 3 ++ l 1 ++ l 1
    ++ h 259 ++ h 3 ++ l 1 ++ l CCITT_group
    ++ h 262 ++ h 3 ++ l 1 ++ l 0
    ++ h 273 ++ h 4 ++ l 1 ++ l 108
    ++ h 278 ++ h 4 ++ l 1 ++ l height
    ++ h 279 ++ h 4 ++ l 1 ++ l img_size
    ++ h 0.

(** The directory a fax header is expected to hold; [v mod 2^32] is the
    unsigned reading of the 32-bit two's-complement field [v] was packed
    into, and is [v] itself when [0 <= v < 2^31]. *)
Definition fax_directory (width height img_size CCITT_group : Z)
  : list ifd_entry :=
  let u v := v mod 4294967296 in
  [ {| tag := 256; typ := 4; count := 1; value := u width |};
    {| tag := 257; typ := 4; count := 1; value := u height |};
    {| tag := 258; typ := 3; count := 1; value := 1 |};
    {| tag := 259; typ := 3; count := 1; value := u CCITT_group |};
    {| tag := 262; typ := 3; count := 1; value := 0 |};
    {| tag := 273; typ := 4; count := 1; value := 108 |};
    {| tag := 278; typ := 4; count := 1; value := u height |};
    {| tag := 279; typ := 4; count := 1; value := u img_size |} ].

(** ** PyPDF2 objects

    Objects are taken as the PDF layer hands them over, indirect references
    already followed.  A dictionary is the list of its items in iteration
    order.  A stream carries its dictionary, its raw bytes ([_data]) and the
    bytes [getData()] returns once the stream's filters are undone. *)

#[local] Set Warnings "-register-all".

Inductive pdf_obj : Type :=
| NameObject (s : string)
| NumberObject (n : Z)
| ArrayObject (items : list pdf_obj)
| DictionaryObject (d : list (string * pdf_obj))
| StreamObject (d : list (string * pdf_obj)) (raw : list byte)
    (decoded : list byte).

Fixpoint assoc {V : Type} (k : string) (d : list (string * V)) : option V :=
  match d with
  | [] => None
  | (k', v) :: d' => if String.eqb k k' then Some v else assoc k d'
  end.

(** [o[k]] *)
Definition getitem (o : pdf_obj) (k : string) : result pdf_obj :=
  match o with
  | DictionaryObject d | StreamObject d _ _ =>
      match assoc k d with
      | Some v => Ok v
      | None => Raise KeyError
      end
  | _ => Raise TypeError
  end.

(** [o == s] for a string [s]: only a name can be equal to it. *)
Definition eq_str (o : pdf_obj) (s : string) : bool :=
  match o with
  | NameObject n => String.eqb n s
  | _ => false
  end.

(** [o == n] for an integer [n]. *)
Definition eq_int (o : pdf_obj) (n : Z) : bool :=
  match o with
  | NumberObject m => m =? n
  | _ => false
  end.

(** [o._data] *)
Definition get_data (o : pdf_obj) : result (list byte) :=
  match o with
  | StreamObject _ raw _ => Ok raw
  | _ => Raise AttributeError
  end.

(** [o.getData()] *)
Definition getData (o : pdf_obj) : result (list byte) :=
  match o with
  | StreamObject _ _ decoded => Ok decoded
  | _ => Raise AttributeError
  end.

Definition arg_of (o : pdf_obj) : Struct.arg :=
  match o with
  | NumberObject n => Struct.AInt n
  | _ => Struct.AOther
  end.

(** ** Colour spaces *)

Definition img_modes : list (string * string) :=
  [("/DeviceRGB", "RGB"); ("/DefaultRGB", "RGB");
   ("/DeviceCMYK", "CMYK"); ("/DefaultCMYK", "CMYK");
   ("/DeviceGray", "L"); ("/DefaultGray", "L");
   ("/Indexed", "P")].

(** [img_modes[color_space]]: a name is looked up, a number is hashable but
    never a key, a list or a dictionary is unhashable. *)
Definition lookup_mode (color_space : pdf_obj) : result string :=
  match color_space with
  | NameObject s =>
      match assoc s img_modes with
      | Some m => Ok m
      | None => Raise KeyError
      end
  | NumberObject _ => Raise KeyError
  | ArrayObject _ | DictionaryObject _ | StreamObject _ _ _ => Raise TypeError
  end.

(** [isinstance(cs, ArrayObject) and cs[0] == t] *)
Definition array_tagged (cs : pdf_obj) (t : string) : result bool :=
  match cs with
  | ArrayObject [] => Raise IndexError
  | ArrayObject (x :: _) => Ok (eq_str x t)
  | _ => Ok false
  end.

(** The two "colorspace fixes", in the order of the script.  [lookup] is the
    local variable of that name: the first fix assigns it, and it keeps its
    value from one image to the next. *)
Definition colorspace_fixes (color_space : pdf_obj) (lookup : option pdf_obj)
  : result (pdf_obj * option pdf_obj) :=
  (indexed <- array_tagged color_space "/Indexed" ;;
   st <- (if indexed : bool then
            match color_space with
            | ArrayObject [c; _; _; l] => Ok (c, Some l)
            | _ => Raise ValueError
            end
          else Ok (color_space, lookup)) ;;
   let color_space := fst st in
   let lookup := snd st in
   icc <- array_tagged color_space "/ICCBased" ;;
   if icc : bool then
     match color_space with
     | ArrayObject (_ :: a1 :: _) =>
         match a1 with
         | DictionaryObject d | StreamObject d _ _ =>
             match assoc "/Alternate" d with
             | Some alt => Ok (alt, lookup)
             | None => Raise IOError
             end
         | _ => Raise AttributeError
         end
     | _ => Raise IndexError
     end
   else Ok (color_space, lookup))%result.

(** Lines 99 to 110 together: from the [/ColorSpace] entry to the PIL mode. *)
Definition resolve_color_space (color_space : pdf_obj)
  (lookup : option pdf_obj) : result (pdf_obj * string * option pdf_obj) :=
  (st <- colorspace_fixes color_space lookup ;;
   mode <- lookup_mode (fst st) ;;
   Ok (fst st, mode, snd st))%result.

(** ** Text: [str.format] with zero-padded integer fields *)

Definition str_of_nat (n : nat) : string :=
  NilZero.string_of_uint (Nat.to_uint n).

Fixpoint zeros (n : nat) : string :=
  match n with
  | O => ""
  | S n' => String "0" (zeros n')
  end.

(** ['{:0w}'.format(n)] for a non-negative [n]. *)
Definition format_0 (w n : nat) : string :=
  let s := str_of_nat n in
  (zeros (w - String.length s) ++ s)%string.

Definition nl : string := String "010" "".
Definition tab : string := String "009" "".

(** The part of a file name from its last dot on, as [Path.suffix] gives it
    for a name with a dot after its first character. *)
Fixpoint has_dot (s : string) : bool :=
  match s with
  | EmptyString => false
  | String c r => Ascii.eqb c "." || has_dot r
  end.

Fixpoint extension (s : string) : string :=
  match s with
  | EmptyString => ""
  | String c r =>
      if has_dot r then extension r
      else if Ascii.eqb c "." then s else ""
  end.

(** ** Paths

    A path is the list of its components; [Path.joinpath] adds one. *)

Definition path : Type := list string.

Definition joinpath (p : path) (name : string) : path := p ++ [name].

Record pdf_path_t : Type := {
  parent : path;
  stem : string
}.

(** ** PIL

    The image written for a Flate stream is kept as the PIL calls that build
    it; PIL's PNG encoder is not part of the script. *)

Inductive pil_image : Type :=
| frombytes (mode : string) (width height : Z) (data : list byte)
| putpalette (img : pil_image) (palette : list byte)
| convert (img : pil_image) (mode : string).

Definition bytes_per_pixel (mode : string) : Z :=
  if String.eqb mode "RGB" then 3
  else if String.eqb mode "CMYK" then 4
  else 1.

(** Modelled from the spec: [Image.frombytes] of PIL, which is not in the
    script's source.  It fails when the byte length does not equal
    width x height x bytes per pixel for the mode; a size that is not a pair
    of integers is a [TypeError]. *)
Definition Image_frombytes (mode : string) (size : pdf_obj * pdf_obj)
  (data : list byte) : result pil_image :=
  match size with
  | (NumberObject w, NumberObject h) =>
      if Z.of_nat (List.length data) =? w * h * bytes_per_pixel mode
      then Ok (frombytes mode w h data)
      else Raise ValueError
  | _ => Raise TypeError
  end.

(** ** The world the script acts on *)

Inductive content : Type :=
| Data (b : list byte)            (* written with [write] *)
| Saved (img : pil_image).        (* written with [img.save] *)

(** The methods [putpalette], [convert] and [save] of a PIL image are not
    part of the script, and each of them can raise (a palette that is too
    long, an image without pixels, a mode the PNG writer refuses).  Whether
    a call raises, and what, is a fact of the PIL the script runs with: the
    world holds it, and the script never changes it. *)
Record pil_t : Type := {
  putpalette_error : pil_image -> list byte -> option exn;
  convert_error : pil_image -> string -> option exn;
  save_error : pil_image -> path -> option exn
}.

(** A PIL whose three methods never raise. *)
Definition pil_accepts_all : pil_t :=
  {| putpalette_error := fun _ _ => None;
     convert_error := fun _ _ => None;
     save_error := fun _ _ => None |}.

Record world : Type := {
  files : list (path * content);  (* files written, oldest first *)
  stdout : list string;           (* lines printed, oldest first *)
  dirs : list path;               (* directories that exist *)
  pil : pil_t                     (* the PIL at hand *)
}.

Definition empty_world : world :=
  {| files := []; stdout := []; dirs := []; pil := pil_accepts_all |}.

(** State and exception: a computation maps a world to the world it leaves
    and either a value or the exception that stopped it. *)
Definition M (A : Type) : Type := world -> world * result A.

Definition ret {A : Type} (a : A) : M A := fun w => (w, Ok a).

Definition bind {A B : Type} (m : M A) (k : A -> M B) : M B :=
  fun w =>
    match m w with
    | (w', Ok a) => k a w'
    | (w', Raise e) => (w', Raise e)
    end.

Definition lift {A : Type} (r : result A) : M A := fun w => (w, r).

Declare Scope io_scope.
Delimit Scope io_scope with io.
Notation "x <- m ;; k" := (bind m (fun x => k))
  (at level 61, m at next level, right associativity) : io_scope.
Notation "m ;;; k" := (bind m (fun _ => k))
  (at level 61, right associativity) : io_scope.

Definition printed (s : string) (w : world) : world :=
  {| files := files w; stdout := stdout w ++ [s]; dirs := dirs w;
     pil := pil w |}.

Definition written (p : path) (c : content) (w : world) : world :=
  {| files := files w ++ [(p, c)]; stdout := stdout w; dirs := dirs w;
     pil := pil w |}.

Definition print (s : string) : M unit := fun w => (printed s w, Ok tt).

Definition write_file (p : path) (c : content) : M unit :=
  fun w => (written p c w, Ok tt).

(** A call of a PIL method: it raises what the PIL at hand says, and
    changes nothing. *)
Definition pil_call (error : pil_t -> option exn) : M unit :=
  fun w =>
    match error (pil w) with
    | Some e => (w, Raise e)
    | None => (w, Ok tt)
    end.

Fixpoint path_eqb (p q : path) : bool :=
  match p, q with
  | [], [] => true
  | a :: p', b :: q' => String.eqb a b && path_eqb p' q'
  | _, _ => false
  end.

(** [if not Path.exists(d): Path.mkdir(d)] *)
Definition ensure_dir (d : path) : M unit :=
  fun w =>
    if existsb (path_eqb d) (dirs w) then (w, Ok tt)
    else
      ({| files := files w; stdout := stdout w; dirs := dirs w ++ [d];
          pil := pil w |},
       Ok tt).

(** ** [extract_images] *)

(** The local variables that live across iterations of the loops: the image
    number [j] on the page and [lookup], which only the Indexed fix
    assigns. *)
Record locals : Type := {
  j : nat;
  lookup : option pdf_obj
}.

(** ['{}page{:02}_{:04}.png'.format(filename_prefix, i+1, j)] *)
Definition img_name_of (filename_prefix : string) (i j : nat) : string :=
  (filename_prefix ++ "page" ++ format_0 2 (i + 1) ++ "_" ++ format_0 4 j
     ++ ".png")%string.

(** The branch for [/FlateDecode]. *)
Definition save_flate (img_path : path) (o : pdf_obj) (mode : string)
  (size : pdf_obj * pdf_obj) (color_space : pdf_obj)
  (lookup : option pdf_obj) : M unit :=
  (data <- lift (getData o) ;;
   img <- lift (Image_frombytes mode size data) ;;
   img <- (if eq_str color_space "/Indexed" then
             match lookup with
             | None => lift (Raise NameError)
             | Some l =>
                 pal <- lift (getData l) ;;
                 pil_call (fun p => putpalette_error p img pal) ;;;
                 pil_call (fun p =>
                             convert_error p (putpalette img pal) "RGB") ;;;
                 ret (convert (putpalette img pal) "RGB")
             end
           else ret img) ;;
   pil_call (fun p => save_error p img img_path) ;;;
   write_file img_path (Saved img))%io.

(** The branches for [/DCTDecode] and [/JPXDecode]: the raw bytes go to the
    file as they are. *)
Definition save_passthrough (img_path : path) (o : pdf_obj) : M unit :=
  (data <- lift (get_data o) ;;
   write_file img_path (Data data))%io.

(** The branch for [/CCITTFaxDecode]. *)
Definition save_ccitt (img_path : path) (o : pdf_obj) : M unit :=
  (parms <- lift (getitem o "/DecodeParms") ;;
   k <- lift (getitem parms "/K") ;;
   let CCITT_group := if eq_int k (-1) then 4 else 3 in
   width <- lift (getitem o "/Width") ;;
   height <- lift (getitem o "/Height") ;;
   data <- lift (get_data o) ;;
   let img_size := Z.of_nat (List.length data) in
   tiff_header <- lift (tiff_header_for_CCITT_args (arg_of width)
                          (arg_of height) (Struct.AInt img_size)
                          (Struct.AInt CCITT_group)) ;;
   write_file img_path (Data (tiff_header ++ data)))%io.

(** The chain of tests on [/Filter]. *)
Definition save_by_filter (img_path : path) (o : pdf_obj) (mode : string)
  (size : pdf_obj * pdf_obj) (color_space : pdf_obj)
  (lookup : option pdf_obj) : M unit :=
  (filter <- lift (getitem o "/Filter") ;;
   if eq_str filter "/FlateDecode" then
     save_flate img_path o mode size color_space lookup
   else if eq_str filter "/DCTDecode" then
     save_passthrough img_path o
   else if eq_str filter "/JPXDecode" then
     save_passthrough img_path o
   else if eq_str filter "/CCITTFaxDecode" then
     save_ccitt img_path o
   else
     print "Unable to save image; unrecognized format!")%io.

(** Lines 95 to 110: the size, the colour space after the fixes, the PIL
    mode, and [lookup] as the fixes leave it. *)
Record image_info_t : Type := {
  size : pdf_obj * pdf_obj;
  color_space : pdf_obj;
  mode : string;
  lookup_after : option pdf_obj
}.

Definition image_info (o : pdf_obj) (lookup : option pdf_obj)
  : result image_info_t :=
  (width <- getitem o "/Width" ;;
   height <- getitem o "/Height" ;;
   cs <- getitem o "/ColorSpace" ;;
   r <- resolve_color_space cs lookup ;;
   Ok {| size := (width, height);
         color_space := fst (fst r);
         mode := snd (fst r);
         lookup_after := snd r |})%result.

(** The body of [for obj in xObject], for the object [o = xObject[obj]] on
    the page of index [i]. *)
Definition process_object (filename_prefix : string) (img_folder : path)
  (i : nat) (o : pdf_obj) (st : locals) : M locals :=
  (subtype <- lift (getitem o "/Subtype") ;;
   if eq_str subtype "/Image" then
     info <- lift (image_info o (lookup st)) ;;
     let img_name := img_name_of filename_prefix i (j st) in
     print (tab ++ tab ++ img_name)%string ;;;
     let img_path := joinpath img_folder img_name in
     save_by_filter img_path o (mode info) (size info) (color_space info)
       (lookup_after info) ;;;
     ret {| j := S (j st); lookup := lookup_after info |}
   else ret st)%io.

Fixpoint xobject_loop (filename_prefix : string) (img_folder : path)
  (i : nat) (xObject : list (string * pdf_obj)) (st : locals) : M locals :=
  match xObject with
  | [] => ret st
  | (_, o) :: rest =>
      (st' <- process_object filename_prefix img_folder i o st ;;
       xobject_loop filename_prefix img_folder i rest st')%io
  end.

(** A page: [Resources] is [None] when the page has no [/Resources] key, and
    [XObject] is [None] when the resources have no [/XObject] key; either way
    the lookup raises the [KeyError] the script catches. *)
Record resources : Type := {
  XObject : option (list (string * pdf_obj))
}.

Record page : Type := {
  Resources : option resources
}.

Definition page_xobject (p : page) : result (list (string * pdf_obj)) :=
  match Resources p with
  | None => Raise KeyError
  | Some r =>
      match XObject r with
      | None => Raise KeyError
      | Some x => Ok x
      end
  end.

(** The body of [for i in range(pdf_file.getNumPages())]; [lookup0] is the
    value of [lookup] when the page starts. *)
Definition process_page (filename_prefix : string) (img_folder : path)
  (i : nat) (p : page) (lookup0 : option pdf_obj) : M (option pdf_obj) :=
  (print (tab ++ "page " ++ str_of_nat (i + 1))%string ;;;
   match page_xobject p with
   | Raise KeyError => ret lookup0                      (* continue *)
   | Raise e => lift (Raise e)
   | Ok xObject =>
       st <- xobject_loop filename_prefix img_folder i xObject
               {| j := 1; lookup := lookup0 |} ;;
       ret (lookup st)
   end)%io.

Fixpoint page_loop (filename_prefix : string) (img_folder : path)
  (i : nat) (pages : list page) (lookup0 : option pdf_obj)
  : M (option pdf_obj) :=
  match pages with
  | [] => ret lookup0
  | p :: rest =>
      (l <- process_page filename_prefix img_folder i p lookup0 ;;
       page_loop filename_prefix img_folder (S i) rest l)%io
  end.

(** What lies at a path: [open_error] is the exception that opening the
    file and reading it with [PdfFileReader] raises at line 68, if any, and
    [pages] are the pages the reader presents otherwise. *)
Record document : Type := {
  pdf_path : pdf_path_t;
  open_error : option exn;
  pages : list page
}.

(** [pdf_file = PyPDF2.PdfFileReader(open(str(pdf_path), 'rb'))] *)
Definition open_pdf (doc : document) : M unit :=
  match open_error doc with
  | Some e => lift (Raise e)
  | None => ret tt
  end.

Definition extract_images (doc : document) : M unit :=
  (open_pdf doc ;;;
   let pdf_name := stem (pdf_path doc) in
   let filename_prefix := (pdf_name ++ "_IMG_")%string in
   let pdf_folder := parent (pdf_path doc) in
   let img_folder := joinpath pdf_folder "extracted_images" in
   ensure_dir img_folder ;;;
   print (nl ++ pdf_name)%string ;;;
   page_loop filename_prefix img_folder 0 (pages doc) None ;;;
   ret tt)%io.

(** [for pdf in pdfs: extract_images(pdf)] *)
Fixpoint extract_all (pdfs : list document) : M unit :=
  match pdfs with
  | [] => ret tt
  | pdf :: rest => (extract_images pdf ;;; extract_all rest)%io
  end.


(** ** Vocabulary for the statements *)

(** [o] is an XObject of subtype [/Image]. *)
Definition is_image (o : pdf_obj) : bool :=
  match getitem o "/Subtype" with
  | Ok v => eq_str v "/Image"
  | Raise _ => false
  end.

(** [o] has a [/Filter] entry equal to the name [f]. *)
Definition has_filter (o : pdf_obj) (f : string) : bool :=
  match getitem o "/Filter" with
  | Ok v => eq_str v f
  | Raise _ => false
  end.

(** The filters the script knows. *)
Definition known_filters : list string :=
  ["/FlateDecode"; "/DCTDecode"; "/JPXDecode"; "/CCITTFaxDecode"].

(** [o] has a [/Filter] entry that is none of the known names. *)
Definition unrecognized_filter (o : pdf_obj) : bool :=
  match getitem o "/Filter" with
  | Ok v => negb (existsb (eq_str v) known_filters)
  | Raise _ => false
  end.

(** The file an image is written to. *)
Definition img_path_of (filename_prefix : string) (img_folder : path)
  (i j : nat) : path :=
  joinpath img_folder (img_name_of filename_prefix i j).

(** The world after the name of the image is printed. *)
Definition announced (filename_prefix : string) (i j : nat) (w : world)
  : world :=
  printed (tab ++ tab ++ img_name_of filename_prefix i j)%string w.


(** The prefix of the file names, the output folder, and the world once
    [extract_images] has made the folder and printed the name of the
    document. *)
Definition prefix_of (doc : document) : string :=
  (stem (pdf_path doc) ++ "_IMG_")%string.

Definition img_folder_of (doc : document) : path :=
  joinpath (parent (pdf_path doc)) "extracted_images".

Definition opened (doc : document) (w : world) : world :=
  printed (nl ++ stem (pdf_path doc))%string
    (fst (ensure_dir (img_folder_of doc) w)).

(** The world after the number of page [i] is printed. *)
Definition page_announced (i : nat) (w : world) : world :=
  printed (tab ++ "page " ++ str_of_nat (i + 1))%string w.

(** The number of XObjects of subtype [/Image] in a resource dictionary. *)
Definition count_images (xObject : list (string * pdf_obj)) : nat :=
  List.length (filter (fun kv => is_image (snd kv)) xObject).



(** ** Sample objects *)

Module Sample.

Definition jpeg : list byte := [xff; xd8; xff; xe0; xff; xd9].

Definition rgb : pdf_obj := NameObject "/DeviceRGB".

(** An [/ICCBased] colour space: [[/ICCBased, profile stream]]. *)
Definition icc (alternate : option pdf_obj) : pdf_obj :=
  ArrayObject
    [NameObject "/ICCBased";
     StreamObject
       (("/N", NumberObject 3)
          :: match alternate with
             | Some a => [("/Alternate", a)]
             | None => []
             end)
       [] []].

(** An image XObject of 2 x 2 pixels. *)
Definition image_dict (cs : pdf_obj) (filter : string)
  : list (string * pdf_obj) :=
  [("/Type", NameObject "/XObject");
   ("/Subtype", NameObject "/Image");
   ("/Width", NumberObject 2);
   ("/Height", NumberObject 2);
   ("/ColorSpace", cs);
   ("/Filter", NameObject filter)].

Definition image (cs : pdf_obj) (filter : string) (raw : list byte)
  : pdf_obj :=
  StreamObject (image_dict cs filter) raw raw.



Definition page_of (xs : list (string * pdf_obj)) : page :=
  {| Resources := Some {| XObject := Some xs |} |}.

Definition doc_of (name : string) (ps : list page) : document :=
  {| pdf_path := {| parent := ["scans"]; stem := name |};
     open_error := None;
     pages := ps |}.

Definition out_folder : path := ["scans"; "extracted_images"].

Definition start : locals := {| j := 1; lookup := None |}.

(** A JPEG whose colour space is [/ICCBased] without an alternate, a JPEG
    in [/DeviceRGB], one with no bytes, and an image with a filter the
    script does not know. *)
Definition bad : pdf_obj := image (icc None) "/DCTDecode" jpeg.
Definition good : pdf_obj := image rgb "/DCTDecode" jpeg.
Definition hollow : pdf_obj := image rgb "/DCTDecode" [].
Definition odd : pdf_obj := image rgb "/LZWDecode" jpeg.


Definition broken_doc : document :=
  doc_of "a" [page_of [("/Im0", bad); ("/Im1", good)];
              page_of [("/Im2", good)]].

Definition sound_doc : document :=
  doc_of "b" [page_of [("/Im0", good)]].

End Sample.

(** ** Vocabulary for further statements *)

(** The number a string of decimal digits stands for, leading zeros
    allowed. *)
Definition nat_of_str (s : string) : option nat :=
  option_map Nat.of_uint (NilEmpty.uint_of_string s).

(** The number of images on a page; a page without [/XObject] has none. *)
Definition page_images (p : page) : nat :=
  match page_xobject p with
  | Ok xs => count_images xs
  | Raise _ => 0%nat
  end.

(** [o] has a [/Filter] entry that is one of the known names. *)
Definition known_filter (o : pdf_obj) : bool :=
  match getitem o "/Filter" with
  | Ok v => existsb (eq_str v) known_filters
  | Raise _ => false
  end.

(** The number of images of a resource dictionary that have a known
    filter. *)
Definition count_saved (xObject : list (string * pdf_obj)) : nat :=
  List.length
    (filter (fun kv => is_image (snd kv) && known_filter (snd kv)) xObject).

(** The first exception in a list of outcomes, if there is one. *)
Fixpoint first_error (l : list (option exn)) : option exn :=
  match l with
  | [] => None
  | Some e :: _ => Some e
  | None :: l' => first_error l'
  end.

(** What the PIL of world [w] says of the three calls the script makes for
    an Indexed image [im] with palette [pal] saved at [p]: [putpalette],
    then [convert('RGB')], then [save]. *)
Definition indexed_pil_error (w : world) (im : pil_image) (pal : list byte)
  (p : path) : option exn :=
  first_error
    [putpalette_error (pil w) im pal;
     convert_error (pil w) (putpalette im pal) "RGB";
     save_error (pil w) (convert (putpalette im pal) "RGB") p].

(** A PIL that refuses a palette of more than 768 bytes and accepts
    everything else. *)
Definition pil_short_palettes : pil_t :=
  {| putpalette_error :=
       fun _ pal =>
         if (768 <? List.length pal)%nat then Some ValueError else None;
     convert_error := fun _ _ => None;
     save_error := fun _ _ => None |}.

(** The path of image [j] of the page of index [i] of a document. *)
Definition doc_img_path (doc : document) (ij : nat * nat) : path :=
  img_path_of (prefix_of doc) (img_folder_of doc) (fst ij) (snd ij).


(** * Properties *)

(** ** Bytes and [struct.pack] *)

Lemma of_N_to_Z : forall n b, Byte.of_N n = Some b -> Bytes.to_Z b = Z.of_N n.
Proof.
  intros n b H. unfold Bytes.to_Z. apply Byte.to_of_N in H. now rewrite H.
Qed.

Lemma to_of_Z : forall z, Bytes.to_Z (Bytes.of_Z z) = z mod 256.
Proof.
  intros z. unfold Bytes.of_Z.
  assert (Hr : 0 <= z mod 256 < 256) by (apply Z.mod_pos_bound; lia).
  destruct (Byte.of_N (Z.to_N (z mod 256))) as [b|] eqn:E.
  - rewrite (of_N_to_Z _ _ E). lia.
  - apply Byte.of_N_None_iff in E. lia.
Qed.

Lemma le_value_le_bytes : forall k v,
  Bytes.le_value (Bytes.le_bytes k v) = v mod 256 ^ Z.of_nat k.
Proof.
  induction k as [|k IH]; intros v.
  - cbn. now rewrite Z.mod_1_r.
  - cbn [Bytes.le_bytes Bytes.le_value].
    rewrite to_of_Z, IH, Nat2Z.inj_succ, Z.pow_succ_r by lia.
    rewrite Z.rem_mul_r by lia. reflexivity.
Qed.

Lemma length_le_bytes : forall k v, List.length (Bytes.le_bytes k v) = k.
Proof.
  induction k as [|k IH]; intros v; cbn; [reflexivity | now rewrite IH].
Qed.

Lemma tiff_header_fits : forall width height img_size CCITT_group,
  Struct.fits_l width = true ->
  Struct.fits_l height = true ->
  Struct.fits_l img_size = true ->
  Struct.fits_l CCITT_group = true ->
  tiff_header_for_CCITT width height img_size CCITT_group
  = Ok (fax_header_bytes width height img_size CCITT_group).
Proof.
  intros w h s g Hw Hh Hs Hg.
  cbv -[Struct.fits_l Bytes.le_bytes].
  rewrite Hw, Hh, Hs, Hg. reflexivity.
Qed.

Lemma tiff_header_unfit : forall width height img_size CCITT_group,
  Struct.fits_l width && Struct.fits_l height && Struct.fits_l img_size
    && Struct.fits_l CCITT_group = false ->
  tiff_header_for_CCITT width height img_size CCITT_group
  = Raise struct_error.
Proof.
  intros w h s g H.
  cbv -[Struct.fits_l Bytes.le_bytes andb].
  destruct (Struct.fits_l w); [|reflexivity].
  destruct (Struct.fits_l h); [|reflexivity].
  destruct (Struct.fits_l g); [|reflexivity].
  destruct (Struct.fits_l s); [discriminate H|reflexivity].
Qed.



Lemma le_value4 : forall v,
  Bytes.le_value
    [Bytes.of_Z v; Bytes.of_Z (v / 256); Bytes.of_Z (v / 256 / 256);
     Bytes.of_Z (v / 256 / 256 / 256)] = v mod 4294967296.
Proof. intros v. exact (le_value_le_bytes 4 v). Qed.

Ltac read_var_field :=
  unfold Bytes.read_u32, Bytes.slice, fax_header_bytes;
  cbn [app Bytes.le_bytes skipn firstn];
  apply le_value4.

Lemma parse_fax_header_bytes : forall width height img_size CCITT_group,
  parse_tiff_header (fax_header_bytes width height img_size CCITT_group)
  = {| byte_order := [x49; x49];
       version := 42;
       ifd_offset := 8;
       ifd := fax_directory width height img_size CCITT_group;
       next_ifd := 0 |}.
Proof.
  intros w h s g.
  set (hdr := fax_header_bytes w h s g).
  assert (E4 : Bytes.read_u32 4 hdr = 8) by reflexivity.
  assert (E8 : Bytes.read_u16 8 hdr = 8) by reflexivity.
  assert (Rw : Bytes.read_u32 18 hdr = w mod 4294967296) by read_var_field.
  assert (Rh : Bytes.read_u32 30 hdr = h mod 4294967296) by read_var_field.
  assert (Rg : Bytes.read_u32 54 hdr = g mod 4294967296) by read_var_field.
  assert (Rr : Bytes.read_u32 90 hdr = h mod 4294967296) by read_var_field.
  assert (Rs : Bytes.read_u32 102 hdr = s mod 4294967296) by read_var_field.
  unfold parse_tiff_header. rewrite E4.
  change (Z.to_nat 8) with 8%nat. rewrite E8.
  change (Z.to_nat 8) with 8%nat.
  cbn [read_entries read_entry Nat.add Nat.mul].
  unfold read_entry. cbn [Nat.add].
  rewrite Rw, Rh, Rg, Rr, Rs.
  reflexivity.
Qed.

(** ** Objects and filters *)

Lemma eq_str_true : forall o s, eq_str o s = true -> o = NameObject s.
Proof.
  intros [n| | | |] s H; try discriminate H.
  cbn in H. apply String.eqb_eq in H. now subst.
Qed.



Section ProcessObject.

Variables (filename_prefix : string) (img_folder : path) (i : nat).

Lemma process_object_image : forall o st w,
  is_image o = true ->
  process_object filename_prefix img_folder i o st w
  = match image_info o (lookup st) with
    | Raise e => (w, Raise e)
    | Ok info =>
        match save_by_filter
                (img_path_of filename_prefix img_folder i (j st)) o
                (mode info) (size info) (color_space info)
                (lookup_after info)
                (announced filename_prefix i (j st) w) with
        | (w', Ok _) =>
            (w', Ok {| j := S (j st); lookup := lookup_after info |})
        | (w', Raise e) => (w', Raise e)
        end
    end.
Proof.
  intros o st w H. unfold is_image in H.
  unfold process_object, bind, lift.
  destruct (getitem o "/Subtype") as [v|e]; [|discriminate H].
  rewrite H.
  destruct (image_info o (lookup st)) as [info|e]; [|reflexivity].
  unfold print, img_path_of, announced.
  destruct (save_by_filter _ _ _ _ _ _ _) as [w' [[]|e]]; reflexivity.
Qed.

Lemma process_object_other : forall o st w st' w',
  is_image o = false ->
  process_object filename_prefix img_folder i o st w = (w', Ok st') ->
  w' = w /\ st' = st.
Proof.
  intros o st w st' w' H. unfold is_image in H.
  unfold process_object, bind, lift.
  destruct (getitem o "/Subtype") as [v|e]; [|discriminate].
  rewrite H. unfold ret. intros E. injection E as <- <-. now split.
Qed.

Lemma process_object_j : forall o st w st' w',
  process_object filename_prefix img_folder i o st w = (w', Ok st') ->
  j st' = if is_image o then S (j st) else j st.
Proof.
  intros o st w st' w' E.
  destruct (is_image o) eqn:I.
  - rewrite (process_object_image _ _ _ I) in E.
    destruct (image_info o (lookup st)) as [info|e]; [|discriminate E].
    destruct (save_by_filter _ _ _ _ _ _ _) as [w1 [[]|e]];
      [|discriminate E].
    injection E as _ <-. reflexivity.
  - destruct (process_object_other _ _ _ _ _ I E) as [_ ->]. reflexivity.
Qed.

End ProcessObject.

Lemma save_by_filter_passthrough : forall p o m sz cs lk w,
  has_filter o "/DCTDecode" || has_filter o "/JPXDecode" = true ->
  save_by_filter p o m sz cs lk w = save_passthrough p o w.
Proof.
  intros p o m sz cs lk w H. unfold has_filter in H.
  unfold save_by_filter, bind, lift.
  destruct (getitem o "/Filter") as [v|e]; [|discriminate H].
  apply orb_true_iff in H as [H|H]; apply eq_str_true in H; subst v;
    reflexivity.
Qed.

Lemma save_by_filter_ccitt : forall p o m sz cs lk w,
  has_filter o "/CCITTFaxDecode" = true ->
  save_by_filter p o m sz cs lk w = save_ccitt p o w.
Proof.
  intros p o m sz cs lk w H. unfold has_filter in H.
  unfold save_by_filter, bind, lift.
  destruct (getitem o "/Filter") as [v|e]; [|discriminate H].
  apply eq_str_true in H; subst v; reflexivity.
Qed.

Lemma save_by_filter_unrecognized : forall p o m sz cs lk w,
  unrecognized_filter o = true ->
  save_by_filter p o m sz cs lk w
  = (printed "Unable to save image; unrecognized format!" w, Ok tt).
Proof.
  intros p o m sz cs lk w H. unfold unrecognized_filter in H.
  unfold save_by_filter, bind, lift.
  destruct (getitem o "/Filter") as [v|e]; [|discriminate H].
  apply negb_true_iff in H. cbn [existsb known_filters] in H.
  repeat (apply orb_false_iff in H as [? H]).
  repeat match goal with E : eq_str v _ = false |- _ => rewrite E; clear E end.
  reflexivity.
Qed.


(** ** The fax header *)

Lemma fits_l_range : forall v,
  -2147483648 <= v <= 2147483647 -> Struct.fits_l v = true.
Proof. intros v H. unfold Struct.fits_l. lia. Qed.

(** C1, as amended.  For every width, height, byte count and group that fit
    a signed 32-bit field, [tiff_header_for_CCITT] returns a header that
    reads back, little-endian, as: the byte-order mark [II], the version 42,
    the offset 8 of the directory, eight entries with the tags 256, 257,
    258, 259, 262, 273, 278, 279 in this order, holding the width, the
    height, 1, the group, 0, the size of the header in bytes (108), the
    height and the byte count, each as a 32-bit two's-complement number, and
    the terminator 0.  For any other input [struct.error] is raised and no
    header is returned. *)
Theorem fax_header_layout : forall width height img_size CCITT_group,
  (-2147483648 <= width <= 2147483647 ->
   -2147483648 <= height <= 2147483647 ->
   -2147483648 <= img_size <= 2147483647 ->
   -2147483648 <= CCITT_group <= 2147483647 ->
   exists hdr,
     tiff_header_for_CCITT width height img_size CCITT_group = Ok hdr
     /\ parse_tiff_header hdr
        = {| byte_order := [x49; x49];
             version := 42;
             ifd_offset := 8;
             ifd := fax_directory width height img_size CCITT_group;
             next_ifd := 0 |}
     /\ map tag (ifd (parse_tiff_header hdr))
        = [256; 257; 258; 259; 262; 273; 278; 279]
     /\ Z.of_nat (List.length hdr) = 108)
  /\ (~ (-2147483648 <= width <= 2147483647
         /\ -2147483648 <= height <= 2147483647
         /\ -2147483648 <= img_size <= 2147483647
         /\ -2147483648 <= CCITT_group <= 2147483647) ->
      tiff_header_for_CCITT width height img_size CCITT_group
      = Raise struct_error).
Proof.
  intros w h s g. split.
  - intros Hw Hh Hs Hg.
    exists (fax_header_bytes w h s g).
    split; [|split; [|split]].
    + apply tiff_header_fits; now apply fits_l_range.
    + apply parse_fax_header_bytes.
    + rewrite parse_fax_header_bytes. reflexivity.
    + reflexivity.
  - intros N. apply tiff_header_unfit.
    destruct (Struct.fits_l w) eqn:Fw; [|reflexivity].
    destruct (Struct.fits_l h) eqn:Fh; [|reflexivity].
    destruct (Struct.fits_l s) eqn:Fs; [|reflexivity].
    destruct (Struct.fits_l g) eqn:Fg; [|reflexivity].
    exfalso. apply N. unfold Struct.fits_l in *. lia.
Qed.

Lemma fax_header_layout_witness :
  (exists hdr,
      tiff_header_for_CCITT 100 50 200 4 = Ok hdr
      /\ parse_tiff_header hdr
         = {| byte_order := [x49; x49];
              version := 42;
              ifd_offset := 8;
              ifd := fax_directory 100 50 200 4;
              next_ifd := 0 |}
      /\ map tag (ifd (parse_tiff_header hdr))
         = [256; 257; 258; 259; 262; 273; 278; 279]
      /\ Z.of_nat (List.length hdr) = 108)
  /\ tiff_header_for_CCITT 100 (-2147483649) 200 4 = Raise struct_error.
Proof.
  split.
  - apply (fax_header_layout 100 50 200 4); lia.
  - apply (fax_header_layout 100 (-2147483649) 200 4). lia.
Defined.

(** C1, as stated, fails: a byte count of 3000000000 fits an unsigned
    32-bit field, and no header is returned for it. *)
Lemma fax_header_not_for_every_input :
  0 <= 3000000000 < 4294967296
  /\ tiff_header_for_CCITT 100 50 3000000000 4 = Raise struct_error.
Proof. split; [lia | reflexivity]. Qed.

(** C9, as amended.  [tiff_header_for_CCITT] succeeds exactly when width,
    height, byte count and group each fit a signed 32-bit field; any other
    input raises [struct.error], and nothing is truncated. *)
Theorem fax_header_succeeds_iff_signed :
  forall width height img_size CCITT_group,
    tiff_header_for_CCITT width height img_size CCITT_group
    = if Struct.fits_l width && Struct.fits_l height
         && Struct.fits_l img_size && Struct.fits_l CCITT_group
      then Ok (fax_header_bytes width height img_size CCITT_group)
      else Raise struct_error.
Proof.
  intros w h s g.
  destruct (Struct.fits_l w && Struct.fits_l h && Struct.fits_l s
            && Struct.fits_l g) eqn:E.
  - apply andb_true_iff in E as [E Hg].
    apply andb_true_iff in E as [E Hs].
    apply andb_true_iff in E as [Hw Hh].
    now apply tiff_header_fits.
  - now apply tiff_header_unfit.
Qed.

(** C9, as stated, fails: the width 2^31 fits an unsigned 32-bit field and
    is rejected. *)
Lemma fax_header_rejects_unsigned_width :
  0 <= 2147483648 < 4294967296
  /\ tiff_header_for_CCITT 2147483648 50 200 4 = Raise struct_error.
Proof. split; [lia | reflexivity]. Qed.

(** ** Colour spaces *)

(** C2, as amended.  Resolution is one pass, not a recursion.  An
    [/ICCBased] array whose profile has an [/Alternate] resolves to the table
    entry of that alternate: the same as resolving the alternate when it is a
    name, a [TypeError] when it is itself an array.  Without [/Alternate] the
    result is an [IOError].  An [/Indexed] array of four items resolves to
    mode [P] whatever its base is. *)
Theorem color_space_single_pass : forall d raw dec rest lk,
  let icc_based :=
    ArrayObject (NameObject "/ICCBased" :: StreamObject d raw dec :: rest) in
  (forall alt,
      assoc "/Alternate" d = Some alt ->
      resolve_color_space icc_based lk
      = match lookup_mode alt with
        | Ok m => Ok (alt, m, lk)
        | Raise e => Raise e
        end)
  /\ (forall n,
         assoc "/Alternate" d = Some (NameObject n) ->
         resolve_color_space icc_based lk
         = resolve_color_space (NameObject n) lk)
  /\ (forall items,
         assoc "/Alternate" d = Some (ArrayObject items) ->
         resolve_color_space icc_based lk = Raise TypeError)
  /\ (assoc "/Alternate" d = None ->
      resolve_color_space icc_based lk = Raise IOError)
  /\ (forall base hival l,
         resolve_color_space
           (ArrayObject [NameObject "/Indexed"; base; hival; l]) lk
         = Ok (NameObject "/Indexed", "P"%string, Some l)).
Proof.
  intros d raw dec rest lk icc_based.
  assert (A : forall alt,
             assoc "/Alternate" d = Some alt ->
             resolve_color_space icc_based lk
             = match lookup_mode alt with
               | Ok m => Ok (alt, m, lk)
               | Raise e => Raise e
               end).
  { intros alt H. unfold icc_based, resolve_color_space, colorspace_fixes.
    cbn [array_tagged eq_str String.eqb Ascii.eqb Bool.eqb rbind fst snd].
    rewrite H. cbn [rbind fst snd]. reflexivity. }
  split; [exact A|]. split; [|split; [|split]].
  - intros n H. rewrite (A _ H). reflexivity.
  - intros items H. rewrite (A _ H). reflexivity.
  - intros H. unfold icc_based, resolve_color_space, colorspace_fixes.
    cbn [array_tagged eq_str String.eqb Ascii.eqb Bool.eqb rbind fst snd].
    rewrite H. reflexivity.
  - intros base hival l. reflexivity.
Qed.

Lemma color_space_single_pass_witness :
  resolve_color_space (Sample.icc (Some (NameObject "/DeviceGray"))) None
  = resolve_color_space (NameObject "/DeviceGray") None
  /\ resolve_color_space (Sample.icc None) None = Raise IOError.
Proof.
  split.
  - apply (color_space_single_pass
             [("/N", NumberObject 3); ("/Alternate", NameObject "/DeviceGray")]
             [] [] [] None).
    reflexivity.
  - apply (color_space_single_pass [("/N", NumberObject 3)] [] [] [] None).
    reflexivity.
Defined.

(** C2, as stated, fails: with an alternate that is itself [/ICCBased], the
    result is a [TypeError], while resolving that alternate gives [RGB]. *)
Lemma nested_alternate_not_resolved :
  resolve_color_space (Sample.icc (Some (Sample.icc (Some Sample.rgb)))) None
  = Raise TypeError
  /\ resolve_color_space (Sample.icc (Some Sample.rgb)) None
     = Ok (Sample.rgb, "RGB"%string, None).
Proof. split; reflexivity. Qed.

(** ** Exceptions leave the loops *)

Section Loops.

Variables (filename_prefix : string) (img_folder : path).

Lemma xobject_loop_raise : forall i pre k o post st w st1 w1 e w2,
  xobject_loop filename_prefix img_folder i pre st w = (w1, Ok st1) ->
  process_object filename_prefix img_folder i o st1 w1 = (w2, Raise e) ->
  xobject_loop filename_prefix img_folder i (pre ++ (k, o) :: post) st w
  = (w2, Raise e).
Proof.
  intros i pre k o post.
  induction pre as [|[k0 o0] pre IH]; intros st w st1 w1 e w2 Hpre Ho.
  - cbn in Hpre. injection Hpre as <- <-.
    cbn [app xobject_loop]. unfold bind. now rewrite Ho.
  - cbn [app xobject_loop] in *. unfold bind in *.
    destruct (process_object filename_prefix img_folder i o0 st w)
      as [w0 [st0|e0]]; [|discriminate Hpre].
    eapply IH; eassumption.
Qed.

Lemma process_page_raise : forall i p lk w xs e w',
  page_xobject p = Ok xs ->
  xobject_loop filename_prefix img_folder i xs {| j := 1; lookup := lk |}
    (page_announced i w) = (w', Raise e) ->
  process_page filename_prefix img_folder i p lk w = (w', Raise e).
Proof.
  intros i p lk w xs e w' Hp Hx.
  unfold process_page, bind, print. fold (page_announced i w).
  rewrite Hp, Hx. reflexivity.
Qed.

Lemma process_page_skip : forall i p lk w,
  page_xobject p = Raise KeyError ->
  process_page filename_prefix img_folder i p lk w
  = (page_announced i w, Ok lk).
Proof.
  intros i p lk w Hp. unfold process_page, bind, print. now rewrite Hp.
Qed.

Lemma page_loop_raise : forall pre i p post lk w lk1 w1 e w2,
  page_loop filename_prefix img_folder i pre lk w = (w1, Ok lk1) ->
  process_page filename_prefix img_folder (i + List.length pre) p lk1 w1
  = (w2, Raise e) ->
  page_loop filename_prefix img_folder i (pre ++ p :: post) lk w
  = (w2, Raise e).
Proof.
  induction pre as [|p0 pre IH]; intros i p post lk w lk1 w1 e w2 Hpre Hp.
  - cbn in Hpre. injection Hpre as <- <-.
    cbn [List.length] in Hp. rewrite Nat.add_0_r in Hp.
    cbn [app page_loop]. unfold bind. now rewrite Hp.
  - cbn [app page_loop] in *. unfold bind in *.
    destruct (process_page filename_prefix img_folder i p0 lk w)
      as [w0 [lk0|e0]]; [|discriminate Hpre].
    eapply IH; [eassumption|].
    cbn [List.length] in Hp. now rewrite Nat.add_succ_comm.
Qed.

End Loops.

Lemma extract_images_opened : forall doc w,
  open_error doc = None ->
  extract_images doc w
  = match page_loop (prefix_of doc) (img_folder_of doc) 0 (pages doc) None
            (opened doc w) with
    | (w', Ok _) => (w', Ok tt)
    | (w', Raise e) => (w', Raise e)
    end.
Proof.
  intros doc w O. unfold extract_images, open_pdf, bind, ret. rewrite O.
  unfold opened, prefix_of, img_folder_of, ensure_dir, print.
  destruct (existsb _ (dirs w)); cbn [fst];
    destruct (page_loop _ _ _ _ _ _) as [w1 [lk|e]]; reflexivity.
Qed.

Lemma extract_images_not_opened : forall doc w e,
  open_error doc = Some e ->
  extract_images doc w = (w, Raise e).
Proof.
  intros doc w e O. unfold extract_images, open_pdf, bind, lift.
  now rewrite O.
Qed.

Lemma opened_files : forall doc w, files (opened doc w) = files w.
Proof.
  intros doc w. unfold opened, ensure_dir.
  now destruct (existsb _ (dirs w)).
Qed.

Lemma opened_stdout : forall doc w,
  stdout (opened doc w) = stdout w ++ [(nl ++ stem (pdf_path doc))%string].
Proof.
  intros doc w. unfold opened, ensure_dir.
  now destruct (existsb _ (dirs w)).
Qed.

Lemma extract_images_raise : forall doc w e w',
  open_error doc = None ->
  page_loop (prefix_of doc) (img_folder_of doc) 0 (pages doc) None
    (opened doc w) = (w', Raise e) ->
  extract_images doc w = (w', Raise e).
Proof.
  intros doc w e w' O H. rewrite (extract_images_opened _ _ O).
  now rewrite H.
Qed.

Lemma extract_all_raise : forall pre doc post w w1 e w2,
  extract_all pre w = (w1, Ok tt) ->
  extract_images doc w1 = (w2, Raise e) ->
  extract_all (pre ++ doc :: post) w = (w2, Raise e).
Proof.
  induction pre as [|d0 pre IH]; intros doc post w w1 e w2 Hpre Hd.
  - cbn in Hpre. injection Hpre as <-.
    cbn [app extract_all]. unfold bind. now rewrite Hd.
  - cbn [app extract_all] in *. unfold bind in *.
    destruct (extract_images d0 w) as [w0 [[]|e0]]; [|discriminate Hpre].
    eapply IH; eassumption.
Qed.

(** C3, as amended.  An exception raised while one image is processed is
    caught nowhere: it ends the loop over the page's objects, the loop over
    the pages, [extract_images] and the run over the documents, each with
    the world as the failing image left it, so nothing after that image is
    processed and the files written before it stay.  The one exception the
    script catches is the [KeyError] of a page without [/Resources] or
    [/XObject]: such a page is skipped.  An exception raised when the PDF
    is opened leaves [extract_images] as well, before anything is done. *)
Theorem exception_ends_the_run :
  (forall prefix folder i pre k o post st w st1 w1 e w2,
      xobject_loop prefix folder i pre st w = (w1, Ok st1) ->
      process_object prefix folder i o st1 w1 = (w2, Raise e) ->
      xobject_loop prefix folder i (pre ++ (k, o) :: post) st w
      = (w2, Raise e))
  /\ (forall prefix folder i p lk w xs e w',
         page_xobject p = Ok xs ->
         xobject_loop prefix folder i xs {| j := 1; lookup := lk |}
           (page_announced i w) = (w', Raise e) ->
         process_page prefix folder i p lk w = (w', Raise e))
  /\ (forall prefix folder pre i p post lk w lk1 w1 e w2,
         page_loop prefix folder i pre lk w = (w1, Ok lk1) ->
         process_page prefix folder (i + List.length pre) p lk1 w1
         = (w2, Raise e) ->
         page_loop prefix folder i (pre ++ p :: post) lk w = (w2, Raise e))
  /\ (forall doc w e w',
         open_error doc = None ->
         page_loop (prefix_of doc) (img_folder_of doc) 0 (pages doc) None
           (opened doc w) = (w', Raise e) ->
         extract_images doc w = (w', Raise e))
  /\ (forall pre doc post w w1 e w2,
         extract_all pre w = (w1, Ok tt) ->
         extract_images doc w1 = (w2, Raise e) ->
         extract_all (pre ++ doc :: post) w = (w2, Raise e))
  /\ (forall prefix folder i p lk w,
         page_xobject p = Raise KeyError ->
         process_page prefix folder i p lk w = (page_announced i w, Ok lk))
  /\ (forall doc w e,
         open_error doc = Some e -> extract_images doc w = (w, Raise e)).
Proof.
  split; [exact xobject_loop_raise|].
  split; [exact process_page_raise|].
  split; [exact page_loop_raise|].
  split; [exact extract_images_raise|].
  split; [exact extract_all_raise|].
  split; [exact process_page_skip|].
  exact extract_images_not_opened.
Qed.

Lemma exception_ends_the_run_witness :
  extract_all ([] ++ Sample.broken_doc :: [Sample.sound_doc]) empty_world
  = (fst (extract_images Sample.broken_doc empty_world), Raise IOError).
Proof.
  pose proof exception_ends_the_run as (_ & _ & _ & _ & H & _).
  apply (H [] Sample.broken_doc [Sample.sound_doc] empty_world empty_world);
    reflexivity.
Defined.

(** C3, as stated, fails: the first image of the first document has an
    [/ICCBased] colour space without alternate; the [IOError] ends the run,
    and neither the JPEG after it on the page, nor the next page, nor the
    next document is written, though each is written when processed alone. *)
Lemma failure_not_scoped_to_one_image :
  snd (extract_all [Sample.broken_doc; Sample.sound_doc] empty_world)
  = Raise IOError
  /\ files (fst (extract_all [Sample.broken_doc; Sample.sound_doc]
                   empty_world)) = []
  /\ files (fst (extract_all [Sample.sound_doc] empty_world))
     = [(["scans"; "extracted_images"; "b_IMG_page01_0001.png"]%string,
         Data Sample.jpeg)].
Proof. repeat split. Qed.

(** ** DCT and JPX images *)

Lemma process_object_passthrough : forall prefix folder i d raw dec st w,
  let o := StreamObject d raw dec in
  is_image o = true ->
  has_filter o "/DCTDecode" || has_filter o "/JPXDecode" = true ->
  process_object prefix folder i o st w
  = match image_info o (lookup st) with
    | Ok info =>
        (written (img_path_of prefix folder i (j st)) (Data raw)
           (announced prefix i (j st) w),
         Ok {| j := S (j st); lookup := lookup_after info |})
    | Raise e => (w, Raise e)
    end.
Proof.
  intros prefix folder i d raw dec st w o I F. subst o.
  rewrite (process_object_image _ _ _ _ _ _ I).
  destruct (image_info _ (lookup st)) as [info|e]; [|reflexivity].
  rewrite (save_by_filter_passthrough _ _ _ _ _ _ _ F).
  reflexivity.
Qed.




Lemma has_dot_app_png : forall s, has_dot (s ++ ".png") = true.
Proof.
  induction s as [|c s IH]; [reflexivity|].
  cbn [String.append has_dot]. rewrite IH. apply orb_true_r.
Qed.

Lemma extension_app_png : forall s, extension (s ++ ".png") = ".png"%string.
Proof.
  induction s as [|c s IH]; [reflexivity|].
  cbn [String.append extension]. now rewrite has_dot_app_png.
Qed.

Lemma string_app_assoc : forall s t u : string,
  ((s ++ t) ++ u = s ++ (t ++ u))%string.
Proof.
  induction s as [|c s IH]; intros t u; [reflexivity|].
  cbn [String.append]. now rewrite IH.
Qed.

Lemma extension_img_name : forall prefix i j,
  extension (img_name_of prefix i j) = ".png"%string.
Proof.
  intros prefix i j. unfold img_name_of.
  rewrite <- !string_app_assoc.
  apply extension_app_png.
Qed.


Lemma of_uint_D0 : forall d,
  Nat.of_uint (Decimal.D0 d) = Nat.of_uint d.
Proof. reflexivity. Qed.

Lemma nat_of_str_zeros : forall k s,
  nat_of_str (zeros k ++ s) = nat_of_str s.
Proof.
  induction k as [|k IH]; intros s; [reflexivity|].
  cbn [zeros String.append]. rewrite <- (IH s). unfold nat_of_str.
  cbn [NilEmpty.uint_of_string].
  destruct (NilEmpty.uint_of_string (zeros k ++ s)); reflexivity.
Qed.

Lemma nat_of_str_str_of_nat : forall n, nat_of_str (str_of_nat n) = Some n.
Proof.
  intros n. unfold nat_of_str, str_of_nat.
  pose proof (DecimalNat.Unsigned.of_to n) as E.
  destruct (Nat.to_uint n) as [|d|d|d|d|d|d|d|d|d|d] eqn:U;
    try (unfold NilZero.string_of_uint; rewrite NilEmpty.usu; cbn [option_map];
         now rewrite E).
  cbn in E. subst n. reflexivity.
Qed.

Lemma nat_of_str_format_0 : forall w n, nat_of_str (format_0 w n) = Some n.
Proof.
  intros w n. unfold format_0.
  rewrite nat_of_str_zeros. apply nat_of_str_str_of_nat.
Qed.

Lemma length_zeros_app : forall k s,
  String.length (zeros k ++ s) = (k + String.length s)%nat.
Proof.
  induction k as [|k IH]; intros s; [reflexivity|].
  cbn [zeros String.append String.length]. now rewrite IH.
Qed.

Lemma length_format_0 : forall w n, (w <= String.length (format_0 w n))%nat.
Proof.
  intros w n. unfold format_0. rewrite length_zeros_app. lia.
Qed.

(** C7, as amended.  For an image stream with filter [/DCTDecode] whose
    colour space resolves, the file written holds the raw bytes, identical,
    and its name is the prefix, [page], the page number in at least two
    digits, [_], the image number in at least four digits, and [.png]: the
    extension is [.png]. *)
Theorem dct_written_as_png : forall prefix folder i d raw dec st w info,
  let o := StreamObject d raw dec in
  let NN := format_0 2 (i + 1) in
  let NNNN := format_0 4 (j st) in
  let name := (prefix ++ "page" ++ NN ++ "_" ++ NNNN ++ ".png")%string in
  is_image o = true ->
  has_filter o "/DCTDecode" = true ->
  image_info o (lookup st) = Ok info ->
  process_object prefix folder i o st w
  = (written (folder ++ [name]) (Data raw)
       (printed (tab ++ tab ++ name) w),
     Ok {| j := S (j st); lookup := lookup_after info |})
  /\ extension name = ".png"%string
  /\ nat_of_str NN = Some (i + 1)%nat /\ (2 <= String.length NN)%nat
  /\ nat_of_str NNNN = Some (j st) /\ (4 <= String.length NNNN)%nat.
Proof.
  intros prefix folder i d raw dec st w info o NN NNNN name I F E.
  assert (F' : has_filter o "/DCTDecode" || has_filter o "/JPXDecode" = true)
    by (rewrite F; reflexivity).
  split; [|split; [|split; [|split; [|split]]]].
  - subst o.
    rewrite (process_object_passthrough prefix folder i d raw dec st w I F').
    now rewrite E.
  - apply (extension_img_name prefix i (j st)).
  - apply nat_of_str_format_0.
  - apply length_format_0.
  - apply nat_of_str_format_0.
  - apply length_format_0.
Qed.

Lemma dct_written_as_png_witness :
  process_object "b_IMG_" Sample.out_folder 4 Sample.good
    {| j := 12; lookup := None |} empty_world
  = (written ["scans"; "extracted_images"; "b_IMG_page05_0012.png"]%string
       (Data Sample.jpeg)
       (printed (tab ++ tab ++ "b_IMG_page05_0012.png") empty_world),
     Ok {| j := 13; lookup := None |})
  /\ extension "b_IMG_page05_0012.png" = ".png"%string.
Proof.
  pose proof (dct_written_as_png "b_IMG_"%string Sample.out_folder 4%nat
                (Sample.image_dict Sample.rgb "/DCTDecode") Sample.jpeg
                Sample.jpeg {| j := 12%nat; lookup := None |} empty_world
                {| size := (NumberObject 2, NumberObject 2);
                   color_space := Sample.rgb;
                   mode := "RGB";
                   lookup_after := None |}
                eq_refl eq_refl eq_refl) as (H1 & H2 & _).
  split; [exact H1 | exact H2].
Defined.

(** C7, as stated, fails: a JPEG stream is written, byte for byte, to a
    file whose extension is [.png], not [.jpg]. *)
Lemma dct_extension_is_not_jpg :
  files (fst (process_object "b_IMG_" Sample.out_folder 0 Sample.good
                Sample.start empty_world))
  = [(["scans"; "extracted_images"; "b_IMG_page01_0001.png"]%string,
      Data Sample.jpeg)]
  /\ extension "b_IMG_page01_0001.png" = ".png"%string
  /\ extension "b_IMG_page01_0001.png" <> ".jpg"%string.
Proof. repeat split. discriminate. Qed.

(** C8, as amended.  For an image stream with filter [/DCTDecode] or
    [/JPXDecode] whose raw bytes are empty and whose colour space resolves,
    no exception is raised: a file of zero bytes is written and the image
    number goes up by one. *)
Theorem empty_payload_written : forall prefix folder i d dec st w info,
  let o := StreamObject d [] dec in
  is_image o = true ->
  has_filter o "/DCTDecode" || has_filter o "/JPXDecode" = true ->
  image_info o (lookup st) = Ok info ->
  process_object prefix folder i o st w
  = (written (img_path_of prefix folder i (j st)) (Data [])
       (announced prefix i (j st) w),
     Ok {| j := S (j st); lookup := lookup_after info |}).
Proof.
  intros prefix folder i d dec st w info o I F E. subst o.
  rewrite (process_object_passthrough prefix folder i d [] dec st w I F).
  now rewrite E.
Qed.

Lemma empty_payload_written_witness :
  process_object "b_IMG_" Sample.out_folder 0 Sample.hollow Sample.start
    empty_world
  = (written (img_path_of "b_IMG_" Sample.out_folder 0 1) (Data [])
       (announced "b_IMG_" 0 1 empty_world),
     Ok {| j := 2; lookup := None |}).
Proof.
  apply (empty_payload_written "b_IMG_" Sample.out_folder 0
           (Sample.image_dict Sample.rgb "/DCTDecode") []
           Sample.start empty_world
           {| size := (NumberObject 2, NumberObject 2);
              color_space := Sample.rgb;
              mode := "RGB";
              lookup_after := None |});
    reflexivity.
Defined.

(** C8, as stated, fails: a DCT image without bytes raises nothing and
    leaves an empty file. *)
Lemma empty_payload_not_rejected :
  snd (process_object "b_IMG_" Sample.out_folder 0 Sample.hollow
         Sample.start empty_world)
  = Ok {| j := 2; lookup := None |}
  /\ files (fst (process_object "b_IMG_" Sample.out_folder 0 Sample.hollow
                   Sample.start empty_world))
     = [(["scans"; "extracted_images"; "b_IMG_page01_0001.png"]%string,
         Data [])].
Proof. split; reflexivity. Qed.

(** ** Fax images *)













(** ** The image number on a page *)

Lemma count_images_cons : forall k o xs,
  count_images ((k, o) :: xs)
  = ((if is_image o then 1 else 0) + count_images xs)%nat.
Proof.
  intros k o xs. unfold count_images. cbn [filter snd].
  now destruct (is_image o).
Qed.

(** C10.  When the loop over a page's objects ends without exception, the
    image number has gone up by one for every XObject of subtype [/Image],
    whatever its filter.  An image whose filter is not recognized prints a
    message, writes no file and still takes a number, so the numbers of the
    files written can have gaps: after such an image, the first file written
    on a page is number 2. *)
Theorem image_index_counts_every_image :
  (forall prefix folder i xs st w w' st',
      xobject_loop prefix folder i xs st w = (w', Ok st') ->
      j st' = (j st + count_images xs)%nat)
  /\ (forall prefix folder i o st w info,
         is_image o = true ->
         unrecognized_filter o = true ->
         image_info o (lookup st) = Ok info ->
         process_object prefix folder i o st w
         = (printed "Unable to save image; unrecognized format!"
              (announced prefix i (j st) w),
            Ok {| j := S (j st); lookup := lookup_after info |}))
  /\ files (fst (xobject_loop "b_IMG_" Sample.out_folder 0
                   [("/Im0"%string, Sample.odd); ("/Im1"%string, Sample.good)]
                   Sample.start empty_world))
     = [(["scans"; "extracted_images"; "b_IMG_page01_0002.png"]%string,
         Data Sample.jpeg)].
Proof.
  split; [|split].
  - intros prefix folder i xs.
    induction xs as [|[k o] xs IH]; intros st w w' st' H.
    + cbn in H. injection H as _ <-. cbn. lia.
    + cbn [xobject_loop] in H. unfold bind in H.
      destruct (process_object prefix folder i o st w) as [w1 [st1|e]] eqn:P;
        [|discriminate H].
      apply process_object_j in P. apply IH in H.
      rewrite H, P, count_images_cons.
      destruct (is_image o); lia.
  - intros prefix folder i o st w info I U E.
    rewrite (process_object_image _ _ _ _ _ _ I), E.
    now rewrite (save_by_filter_unrecognized _ _ _ _ _ _ _ U).
  - reflexivity.
Qed.

Lemma image_index_counts_every_image_witness :
  j (Sample.start) = 1%nat
  /\ count_images [("/Im0"%string, Sample.odd); ("/Im1"%string, Sample.good)]
     = 2%nat
  /\ j {| j := 3; lookup := None |}
     = (j Sample.start
        + count_images
            [("/Im0"%string, Sample.odd); ("/Im1"%string, Sample.good)])%nat.
Proof.
  split; [reflexivity|]. split; [reflexivity|].
  apply (proj1 image_index_counts_every_image "b_IMG_"%string
           Sample.out_folder 0%nat
           [("/Im0"%string, Sample.odd); ("/Im1"%string, Sample.good)]
           Sample.start empty_world
           (fst (xobject_loop "b_IMG_" Sample.out_folder 0
                   [("/Im0"%string, Sample.odd); ("/Im1"%string, Sample.good)]
                   Sample.start empty_world))).
  reflexivity.
Defined.

(** * Further properties *)

(** ** File names *)

Lemma format_0_inj : forall w n w' n',
  format_0 w n = format_0 w' n' -> n = n'.
Proof.
  intros w n w' n' E.
  pose proof (nat_of_str_format_0 w n) as H. rewrite E in H.
  rewrite nat_of_str_format_0 in H. now injection H.
Qed.

(** A string [nat_of_str] reads holds digits only, so a character that is
    not a digit ends it. *)
Lemma digits_then_sep : forall c a a' x x',
  (forall d, uint_of_char c (Some d) = None) ->
  nat_of_str a <> None -> nat_of_str a' <> None ->
  (a ++ String c x = a' ++ String c x')%string ->
  a = a' /\ x = x'.
Proof.
  intros c a. induction a as [|b a IH]; intros [|b' a'] x x' Hc Ha Ha' E.
  - cbn in E. injection E as ->. now split.
  - cbn in E. injection E as <- _. exfalso. apply Ha'.
    unfold nat_of_str. cbn [NilEmpty.uint_of_string].
    destruct (NilEmpty.uint_of_string a'); [now rewrite Hc | reflexivity].
  - cbn in E. injection E as -> _. exfalso. apply Ha.
    unfold nat_of_str. cbn [NilEmpty.uint_of_string].
    destruct (NilEmpty.uint_of_string a); [now rewrite Hc | reflexivity].
  - cbn in E. injection E as -> E.
    assert (T : forall s, nat_of_str (String b' s) <> None ->
                          nat_of_str s <> None).
    { intros s H N. apply H. unfold nat_of_str in *.
      cbn [NilEmpty.uint_of_string].
      destruct (NilEmpty.uint_of_string s); [discriminate N | reflexivity]. }
    destruct (IH a' x x' Hc (T _ Ha) (T _ Ha') E) as [-> ->]. now split.
Qed.

Lemma format_0_digits : forall w n, nat_of_str (format_0 w n) <> None.
Proof. intros w n. now rewrite nat_of_str_format_0. Qed.

Lemma string_app_inv_head : forall s x y : string,
  (s ++ x = s ++ y)%string -> x = y.
Proof.
  induction s as [|c s IH]; intros x y E; [exact E|].
  cbn in E. injection E as E. now apply IH.
Qed.

Lemma name_tells_indices : forall prefix i j i' j',
  img_name_of prefix i j = img_name_of prefix i' j' ->
  i = i' /\ j = j'.
Proof.
  intros prefix i j i' j' E. unfold img_name_of in E.
  apply string_app_inv_head in E. cbn [String.append] in E.
  injection E as E.
  apply digits_then_sep in E;
    [|reflexivity | apply format_0_digits | apply format_0_digits].
  destruct E as [Ei Ej].
  apply format_0_inj in Ei.
  change ".png"%string with (String "." "png") in Ej.
  apply digits_then_sep in Ej;
    [|reflexivity | apply format_0_digits | apply format_0_digits].
  destruct Ej as [Ej _]. apply format_0_inj in Ej.
  split; [lia | exact Ej].
Qed.


(** X1.  The file name tells the page and the image number apart: two
    names built with the same prefix are equal only for the same page index
    and the same image number. *)
Theorem img_name_of_inj : forall prefix i j i' j',
  img_name_of prefix i j = img_name_of prefix i' j' ->
  i = i' /\ j = j'.
Proof. exact name_tells_indices. Qed.

Lemma img_name_of_inj_witness :
  (0 = 0 /\ 7 = 7)%nat.
Proof.
  apply (img_name_of_inj "a_IMG_" 0 7 0 7). reflexivity.
Defined.

Lemma img_path_of_inj : forall prefix folder i j i' j',
  img_path_of prefix folder i j = img_path_of prefix folder i' j' ->
  i = i' /\ j = j'.
Proof.
  intros prefix folder i j i' j' E. unfold img_path_of, joinpath in E.
  apply app_inv_head in E. injection E as E.
  now apply name_tells_indices in E.
Qed.

(** ** What one object writes *)

Lemma save_flate_outcome : forall p o m sz cs lk w w' r,
  save_flate p o m sz cs lk w = (w', r) ->
  (exists e, r = Raise e /\ w' = w)
  \/ (r = Ok tt /\ exists img, w' = written p (Saved img) w).
Proof.
  intros p o m sz cs lk w w' r.
  unfold save_flate, bind, lift, ret, pil_call, write_file.
  destruct (getData o) as [data|e];
    [|intros E; injection E as <- <-; left; eauto].
  destruct (Image_frombytes m sz data) as [im|e];
    [|intros E; injection E as <- <-; left; eauto].
  destruct (eq_str cs "/Indexed").
  - destruct lk as [l|]; [|intros E; injection E as <- <-; left; eauto].
    destruct (getData l) as [pal|e];
      [|intros E; injection E as <- <-; left; eauto].
    destruct (putpalette_error (pil w) im pal);
      [intros E; injection E as <- <-; left; eauto|].
    destruct (convert_error (pil w) (putpalette im pal) "RGB");
      [intros E; injection E as <- <-; left; eauto|].
    destruct (save_error (pil w) _ p);
      intros E; injection E as <- <-; [left|right]; eauto.
  - destruct (save_error (pil w) _ p);
      intros E; injection E as <- <-; [left|right]; eauto.
Qed.

(** Each branch of the filter chain ends with its only write: it adds one
    file at the path it is given, or it adds nothing; an exception is
    always raised before the write. *)
Lemma save_by_filter_files : forall p o m sz cs lk w w' r,
  save_by_filter p o m sz cs lk w = (w', r) ->
  dirs w' = dirs w
  /\ (files w' = files w
      \/ (exists c, files w' = files w ++ [(p, c)]) /\ r = Ok tt).
Proof.
  intros p o m sz cs lk w w' r.
  unfold save_by_filter, save_passthrough, save_ccitt,
    bind, lift, ret, write_file, print.
  destruct (getitem o "/Filter") as [f|e];
    [|intros E; injection E as <- <-; auto].
  destruct (eq_str f "/FlateDecode").
  { intros E. apply save_flate_outcome in E.
    destruct E as [(e & -> & ->)|(-> & im & ->)]; [auto|].
    split; [reflexivity|]. right. split; [eexists|]; reflexivity. }
  assert (P : forall w' r,
             match get_data o with
             | Ok data => (written p (Data data) w, Ok tt)
             | Raise e => (w, Raise e)
             end = (w', r) ->
             dirs w' = dirs w
             /\ (files w' = files w
                 \/ (exists c, files w' = files w ++ [(p, c)]) /\ r = Ok tt)).
  { intros w1 r1. destruct (get_data o) as [data|e];
      intros E; injection E as <- <-; [|auto].
    split; [reflexivity|]. right. split; [eexists|]; reflexivity. }
  destruct (eq_str f "/DCTDecode"); [apply P|].
  destruct (eq_str f "/JPXDecode"); [apply P|].
  destruct (eq_str f "/CCITTFaxDecode").
  { destruct (getitem o "/DecodeParms") as [parms|e];
      [|intros E; injection E as <- <-; auto].
    destruct (getitem parms "/K") as [k|e];
      [|intros E; injection E as <- <-; auto].
    destruct (getitem o "/Width") as [width|e];
      [|intros E; injection E as <- <-; auto].
    destruct (getitem o "/Height") as [height|e];
      [|intros E; injection E as <- <-; auto].
    destruct (get_data o) as [data|e];
      [|intros E; injection E as <- <-; auto].
    destruct (tiff_header_for_CCITT_args _ _ _ _) as [hdr|e];
      intros E; injection E as <- <-; [|auto].
    split; [reflexivity|]. right. split; [eexists|]; reflexivity. }
  intros E; injection E as <- <-. auto.
Qed.

Lemma process_object_files : forall prefix folder i o st w w' r,
  process_object prefix folder i o st w = (w', r) ->
  dirs w' = dirs w
  /\ (files w' = files w
      \/ is_image o = true
         /\ (exists c,
                files w'
                = files w ++ [(img_path_of prefix folder i (j st), c)])
         /\ exists st', r = Ok st').
Proof.
  intros prefix folder i o st w w' r E.
  destruct (is_image o) eqn:I.
  - rewrite (process_object_image _ _ _ _ _ _ I) in E.
    destruct (image_info o (lookup st)) as [info|e];
      [|injection E as <- <-; auto].
    destruct (save_by_filter _ _ _ _ _ _ _) as [w1 r1] eqn:S.
    apply save_by_filter_files in S. destruct S as [D F].
    assert (w1 = w') by (destruct r1; now injection E). subst w1.
    split; [exact D|].
    destruct F as [F|[F R]]; [left; exact F|right].
    subst r1. injection E as <-.
    split; [reflexivity|]. split; [exact F | eexists; reflexivity].
  - unfold is_image in I. unfold process_object, bind, lift in E.
    destruct (getitem o "/Subtype") as [v|e];
      [|injection E as <- <-; auto].
    rewrite I in E. injection E as <- <-. auto.
Qed.

(** X2.  One object gives at most one file.  Whatever the outcome of
    [process_object], the files after it are the files before it, or those
    plus one file at the path of the current image number; a file is added
    only for an XObject of subtype [/Image] and only when no exception is
    raised, so an image that fails leaves no file. *)
Theorem at_most_one_file_per_object : forall prefix folder i o st w,
  let w' := fst (process_object prefix folder i o st w) in
  let r := snd (process_object prefix folder i o st w) in
  files w' = files w
  \/ is_image o = true
     /\ (exists c,
            files w' = files w ++ [(img_path_of prefix folder i (j st), c)])
     /\ exists st', r = Ok st'.
Proof.
  intros prefix folder i o st w w' r.
  apply (process_object_files prefix folder i o st w w' r).
  subst w' r. now destruct (process_object prefix folder i o st w).
Qed.

(** ** What a page and a document write *)

Lemma xobject_loop_files : forall prefix folder i xs st w w' r,
  xobject_loop prefix folder i xs st w = (w', r) ->
  dirs w' = dirs w
  /\ exists l js,
       files w' = files w ++ l
       /\ map fst l = map (img_path_of prefix folder i) js
       /\ NoDup js
       /\ Forall (fun j' => j st <= j' < j st + count_images xs)%nat js.
Proof.
  intros prefix folder i xs.
  induction xs as [|[k o] xs IH]; intros st w w' r E.
  - cbn in E. injection E as <- <-. split; [reflexivity|].
    exists [], []. rewrite app_nil_r. repeat split; constructor.
  - cbn [xobject_loop] in E. unfold bind in E.
    destruct (process_object prefix folder i o st w) as [w1 r1] eqn:P.
    pose proof (process_object_files _ _ _ _ _ _ _ _ P) as [D1 F1].
    rewrite count_images_cons.
    destruct r1 as [st1|e].
    + pose proof (process_object_j _ _ _ _ _ _ _ _ P) as J.
      apply IH in E. destruct E as (D & l & js & F & Pths & ND & B).
      split; [congruence|].
      destruct F1 as [F1|(I & (c & F1) & _)].
      * exists l, js. rewrite F, F1.
        repeat split; try assumption.
        eapply Forall_impl; [|exact B]. cbn beta. intros a Ha.
        rewrite J in Ha. destruct (is_image o); lia.
      * rewrite I in J. exists ((img_path_of prefix folder i (j st), c) :: l),
          (j st :: js).
        rewrite F, F1, <- app_assoc. cbn [app map fst].
        rewrite Pths, I. repeat split.
        -- constructor; [|exact ND]. intros In_.
           rewrite Forall_forall in B. apply B in In_. lia.
        -- constructor; [lia|].
           eapply Forall_impl; [|exact B]. cbn beta. intros a Ha. lia.
    + injection E as <- <-. split; [exact D1|].
      destruct F1 as [F1|(_ & _ & st' & R)]; [|discriminate R].
      exists [], []. rewrite app_nil_r. repeat split; try constructor.
      exact F1.
Qed.

Lemma process_page_files : forall prefix folder i p lk w w' r,
  process_page prefix folder i p lk w = (w', r) ->
  dirs w' = dirs w
  /\ exists l js,
       files w' = files w ++ l
       /\ map fst l = map (img_path_of prefix folder i) js
       /\ NoDup js
       /\ Forall (fun j' => 1 <= j' <= page_images p)%nat js.
Proof.
  intros prefix folder i p lk w w' r E.
  unfold process_page, bind, print, lift, ret in E. unfold page_images.
  destruct (page_xobject p) as [xs|e].
  - destruct (xobject_loop _ _ _ _ _ _) as [w1 r1] eqn:X.
    apply xobject_loop_files in X.
    destruct X as (D & l & js & F & Pths & ND & B).
    assert (w1 = w') by (destruct r1; now injection E). subst w1.
    split; [exact D|]. exists l, js. repeat split; try assumption.
    eapply Forall_impl; [|exact B]. cbn. intros a Ha. lia.
  - assert (W : w' = page_announced i w)
      by (destruct e; now injection E).
    subst w'. split; [reflexivity|].
    exists [], []. cbn. rewrite app_nil_r. repeat split; constructor.
Qed.

Lemma NoDup_map_of_inj : forall (A B : Type) (f : A -> B) (l : list A),
  (forall x y, f x = f y -> x = y) -> NoDup l -> NoDup (map f l).
Proof.
  intros A B f l Inj ND. induction ND as [|a l Hin ND IH]; cbn.
  - constructor.
  - constructor; [|exact IH]. intros H. apply in_map_iff in H.
    destruct H as (b & E & Hb). apply Inj in E. now subst b.
Qed.

Lemma page_loop_files : forall prefix folder ps i lk w w' r,
  page_loop prefix folder i ps lk w = (w', r) ->
  dirs w' = dirs w
  /\ exists l ijs,
       files w' = files w ++ l
       /\ map fst l
          = map (fun ij => img_path_of prefix folder (fst ij) (snd ij)) ijs
       /\ NoDup ijs
       /\ Forall (fun ij =>
                    i <= fst ij
                    /\ exists p,
                         nth_error ps (fst ij - i) = Some p
                         /\ 1 <= snd ij <= page_images p)%nat ijs.
Proof.
  intros prefix folder ps.
  induction ps as [|p ps IH]; intros i lk w w' r E.
  - cbn in E. injection E as <- <-. split; [reflexivity|].
    exists [], []. rewrite app_nil_r. repeat split; constructor.
  - cbn [page_loop] in E. unfold bind in E.
    destruct (process_page prefix folder i p lk w) as [w1 r1] eqn:P.
    apply process_page_files in P.
    destruct P as (D1 & l1 & js1 & F1 & P1 & ND1 & B1).
    assert (H1 : map fst l1
                 = map (fun ij => img_path_of prefix folder (fst ij) (snd ij))
                     (map (pair i) js1))
      by (rewrite map_map; exact P1).
    assert (N1 : NoDup (map (pair i) js1))
      by (apply NoDup_map_of_inj; [intros x y [= ->]; reflexivity | exact ND1]).
    assert (A1 : Forall (fun ij =>
                           i <= fst ij
                           /\ exists q,
                                nth_error (p :: ps) (fst ij - i) = Some q
                                /\ 1 <= snd ij <= page_images q)%nat
                   (map (pair i) js1)).
    { apply Forall_forall. intros ij Hin. apply in_map_iff in Hin.
      destruct Hin as (j' & <- & Hj). rewrite Forall_forall in B1.
      cbn [fst snd]. split; [lia|]. exists p.
      rewrite Nat.sub_diag. split; [reflexivity | now apply B1]. }
    destruct r1 as [lk1|e].
    + apply IH in E. destruct E as (D & l & ijs & F & Pths & ND & B).
      split; [congruence|].
      exists (l1 ++ l), (map (pair i) js1 ++ ijs).
      rewrite F, F1, <- app_assoc, !map_app, H1, Pths.
      repeat split.
      * apply NoDup_app; [exact N1 | exact ND |].
        intros ij Hin Hin'. apply in_map_iff in Hin.
        destruct Hin as (j' & <- & _).
        rewrite Forall_forall in B. apply B in Hin'. cbn in Hin'. lia.
      * apply Forall_app. split; [exact A1|].
        eapply Forall_impl; [|exact B]. cbn beta.
        intros ij (Hi & q & Hq & Hj). split; [lia|]. exists q.
        split; [|exact Hj].
        replace (fst ij - i)%nat with (S (fst ij - S i)) by lia.
        exact Hq.
    + injection E as <- <-. split; [exact D1|].
      exists l1, (map (pair i) js1). repeat split; assumption.
Qed.

(** X3.  Where a document's images go.  Whatever the outcome of
    [extract_images], the files it adds all lie in the folder
    [extracted_images] beside the PDF, are named after the PDF, a page of
    the document and an image number between 1 and the number of images on
    that page, and no two of them have the same path. *)
Theorem document_files_distinct : forall doc w,
  exists l ijs,
    files (fst (extract_images doc w)) = files w ++ l
    /\ map fst l = map (doc_img_path doc) ijs
    /\ NoDup (map fst l)
    /\ Forall (fun ij =>
                 exists p,
                   nth_error (pages doc) (fst ij) = Some p
                   /\ 1 <= snd ij <= page_images p)%nat ijs.
Proof.
  intros doc w. destruct (open_error doc) as [e|] eqn:O.
  - rewrite (extract_images_not_opened _ _ _ O). exists [], [].
    cbn [fst map]. rewrite app_nil_r. repeat split; constructor.
  - rewrite (extract_images_opened _ _ O).
    destruct (page_loop _ _ _ _ _ _) as [w1 r1] eqn:L.
    apply page_loop_files in L.
    destruct L as (_ & l & ijs & F & Pths & ND & B).
    assert (W : fst (match r1 with
                     | Ok _ => (w1, Ok tt)
                     | Raise e => (w1, Raise e)
                     end) = w1) by now destruct r1.
    rewrite W. exists l, ijs. rewrite F, opened_files.
    split; [reflexivity|]. split; [exact Pths|]. split.
    + rewrite Pths. apply NoDup_map_of_inj; [|exact ND].
      intros [a b] [a' b'] E. unfold doc_img_path in E. cbn [fst snd] in E.
      apply img_path_of_inj in E. destruct E as [-> ->]. reflexivity.
    + eapply Forall_impl; [|exact B]. cbn beta.
      intros ij (_ & q & Hq & Hj). exists q.
      rewrite Nat.sub_0_r in Hq. now split.
Qed.

Lemma page_loop_no_xobject : forall prefix folder ps i lk w,
  Forall (fun p => page_xobject p = Raise KeyError) ps ->
  let w' := fst (page_loop prefix folder i ps lk w) in
  snd (page_loop prefix folder i ps lk w) = Ok lk
  /\ files w' = files w
  /\ stdout w'
     = stdout w
         ++ map (fun k => (tab ++ "page " ++ str_of_nat (k + 1))%string)
              (seq i (List.length ps)).
Proof.
  intros prefix folder ps.
  induction ps as [|p ps IH]; intros i lk w H.
  - cbn. rewrite app_nil_r. auto.
  - inversion H as [|p' ps' Hp Hps]; subst.
    cbn [page_loop]. unfold bind.
    rewrite (process_page_skip _ _ _ _ _ _ Hp).
    destruct (IH (S i) lk (page_announced i w) Hps) as (R & F & O).
    cbn zeta. split; [exact R|]. split; [exact F|].
    rewrite O. cbn [List.length seq map page_announced printed stdout].
    now rewrite <- app_assoc.
Qed.

(** X4.  A document that opens and has no page with [/Resources] and
    [/XObject] is read to the end without exception: no file is written,
    and what is printed is the name of the document and one line per page,
    numbered from 1. *)
Theorem document_without_xobjects : forall doc w,
  open_error doc = None ->
  Forall (fun p => page_xobject p = Raise KeyError) (pages doc) ->
  let w' := fst (extract_images doc w) in
  snd (extract_images doc w) = Ok tt
  /\ files w' = files w
  /\ stdout w'
     = stdout w
         ++ (nl ++ stem (pdf_path doc))%string
         :: map (fun k => (tab ++ "page " ++ str_of_nat (k + 1))%string)
              (seq 0 (List.length (pages doc))).
Proof.
  intros doc w Op H. rewrite (extract_images_opened _ _ Op).
  pose proof (page_loop_no_xobject (prefix_of doc) (img_folder_of doc)
                (pages doc) 0 None (opened doc w) H) as (R & F & O).
  destruct (page_loop _ _ _ _ _ _) as [w1 r1]. cbn [fst snd] in *.
  subst r1. cbn [fst snd]. split; [reflexivity|].
  split; [now rewrite F, opened_files|].
  rewrite O, opened_stdout, <- app_assoc. reflexivity.
Qed.

Lemma document_without_xobjects_witness :
  snd (extract_images
         (Sample.doc_of "c" [{| Resources := None |};
                             {| Resources := Some {| XObject := None |} |}])
         empty_world) = Ok tt
  /\ files (fst (extract_images
                   (Sample.doc_of "c"
                      [{| Resources := None |};
                       {| Resources := Some {| XObject := None |} |}])
                   empty_world)) = files empty_world
  /\ stdout (fst (extract_images
                    (Sample.doc_of "c"
                       [{| Resources := None |};
                        {| Resources := Some {| XObject := None |} |}])
                    empty_world))
     = stdout empty_world
         ++ (nl ++ "c")%string
         :: map (fun k => (tab ++ "page " ++ str_of_nat (k + 1))%string)
              (seq 0 2).
Proof.
  apply (document_without_xobjects
           (Sample.doc_of "c"
              [{| Resources := None |};
               {| Resources := Some {| XObject := None |} |}])
           empty_world).
  - reflexivity.
  - repeat constructor.
Defined.

Lemma path_eqb_eq : forall p q, path_eqb p q = true <-> p = q.
Proof.
  induction p as [|a p IH]; intros [|b q]; cbn; split; intros H;
    try discriminate; try reflexivity.
  - apply andb_true_iff in H as [Ha Hp]. apply String.eqb_eq in Ha.
    apply IH in Hp. now subst.
  - injection H as -> ->. rewrite String.eqb_refl. now apply IH.
Qed.

Lemma ensure_dir_dirs : forall d w,
  In d (dirs (fst (ensure_dir d w)))
  /\ (In d (dirs w) -> dirs (fst (ensure_dir d w)) = dirs w)
  /\ (~ In d (dirs w) -> dirs (fst (ensure_dir d w)) = dirs w ++ [d]).
Proof.
  intros d w. unfold ensure_dir.
  destruct (existsb (path_eqb d) (dirs w)) eqn:E; cbn [fst dirs].
  - apply existsb_exists in E. destruct E as (q & Hq & Eq).
    apply path_eqb_eq in Eq. subst q. repeat split; auto.
    intros N. contradiction.
  - split; [apply in_or_app; right; now left|]. split; [|reflexivity].
    intros Hin. assert (T : existsb (path_eqb d) (dirs w) = true).
    { apply existsb_exists. exists d. split; [exact Hin|].
      now apply path_eqb_eq. }
    congruence.
Qed.

(** X5.  The output folder.  When the PDF opens, then whatever happens
    afterwards, and whether or not the document has images, the folder
    [extracted_images] beside the PDF exists after [extract_images]; it is
    made only when it did not exist, and no other folder is made.  When
    opening the PDF raises, the exception leaves [extract_images] before the
    folder is made: the world is left as it was. *)
Theorem output_folder_made_once : forall doc w,
  let w' := fst (extract_images doc w) in
  (open_error doc = None ->
   In (img_folder_of doc) (dirs w')
   /\ (In (img_folder_of doc) (dirs w) -> dirs w' = dirs w)
   /\ (~ In (img_folder_of doc) (dirs w) ->
       dirs w' = dirs w ++ [img_folder_of doc]))
  /\ (forall e,
         open_error doc = Some e -> extract_images doc w = (w, Raise e)).
Proof.
  intros doc w. cbn zeta. split.
  - intros O.
    assert (D : dirs (fst (extract_images doc w))
                = dirs (fst (ensure_dir (img_folder_of doc) w))).
    { rewrite (extract_images_opened _ _ O).
      destruct (page_loop _ _ _ _ _ _) as [w1 r1] eqn:L.
      apply page_loop_files in L. destruct L as [L _].
      destruct r1; cbn [fst]; exact L. }
    rewrite D. apply ensure_dir_dirs.
  - intros e O. exact (extract_images_not_opened _ _ _ O).
Qed.

Lemma output_folder_made_once_witness :
  dirs (fst (extract_images Sample.broken_doc empty_world))
  = dirs empty_world ++ [img_folder_of Sample.broken_doc]
  /\ extract_images
       {| pdf_path := {| parent := ["scans"]; stem := "gone" |};
          open_error := Some IOError;
          pages := [] |}
       empty_world
     = (empty_world, Raise IOError).
Proof.
  split.
  - apply (output_folder_made_once Sample.broken_doc empty_world).
    + reflexivity.
    + cbn. tauto.
  - apply (output_folder_made_once
             {| pdf_path := {| parent := ["scans"]; stem := "gone" |};
                open_error := Some IOError;
                pages := [] |}
             empty_world).
    reflexivity.
Defined.

(** X6.  XObjects that are not images.  When every object of a page has a
    [/Subtype] other than [/Image] (a form, say), the loop over the page's
    objects changes nothing: no line is printed, no file is written, and the
    image number stays where it was. *)
Theorem non_images_are_skipped : forall prefix folder i xs st w,
  Forall (fun kv => exists v,
              getitem (snd kv) "/Subtype" = Ok v
              /\ eq_str v "/Image" = false) xs ->
  xobject_loop prefix folder i xs st w = (w, Ok st).
Proof.
  intros prefix folder i xs st w H.
  induction H as [|[k o] xs (v & Hv & Hn) _ IH]; [reflexivity|].
  cbn [xobject_loop snd] in *. unfold bind.
  unfold process_object, bind, lift. rewrite Hv, Hn. exact IH.
Qed.

Lemma non_images_are_skipped_witness :
  xobject_loop "a_IMG_" Sample.out_folder 0
    [("/Fm0"%string,
      StreamObject [("/Subtype", NameObject "/Form")] Sample.jpeg []);
     ("/Fm1"%string,
      DictionaryObject [("/Subtype", NameObject "/PS")])]
    Sample.start empty_world
  = (empty_world, Ok Sample.start).
Proof.
  apply (non_images_are_skipped "a_IMG_" Sample.out_folder 0).
  repeat constructor; eexists; split; reflexivity.
Defined.

(** ** Colour spaces, continued *)

Lemma lookup_mode_ok : forall cs m,
  lookup_mode cs = Ok m ->
  exists n, cs = NameObject n /\ assoc n img_modes = Some m.
Proof.
  intros [n| | | |] m H; try discriminate H.
  cbn [lookup_mode] in H. exists n. split; [reflexivity|].
  destruct (assoc n img_modes); [now injection H as -> | discriminate H].
Qed.

Lemma img_modes_modes : forall n m,
  assoc n img_modes = Some m ->
  In m ["RGB"; "CMYK"; "L"; "P"]%string.
Proof.
  intros n m H. unfold img_modes in H. cbn [assoc] in H.
  repeat match type of H with
         | (if ?b then _ else _) = _ =>
             destruct b; [injection H as <-; cbn; tauto|]
         end.
  discriminate H.
Qed.

(** X7.  What a successful resolution looks like.  When lines 99 to 110
    yield a mode, the colour space they end with is a name of [img_modes]
    and the mode is [RGB], [CMYK], [L] or [P].  The entry was then one of
    three things: that name itself; an array of exactly four items headed
    by [/Indexed], and then the mode is [P] and [lookup] becomes the fourth
    item; or an array headed by [/ICCBased] whose second item holds that
    name under [/Alternate].  [lookup] changes in the second case only. *)
Theorem resolve_color_space_inv : forall cs lk cs' m lk',
  resolve_color_space cs lk = Ok (cs', m, lk') ->
  (exists n, cs' = NameObject n /\ assoc n img_modes = Some m)
  /\ In m ["RGB"; "CMYK"; "L"; "P"]%string
  /\ (cs = cs' /\ lk' = lk
      \/ (exists base hival l,
             cs = ArrayObject [NameObject "/Indexed"; base; hival; l]
             /\ cs' = NameObject "/Indexed" /\ m = "P"%string
             /\ lk' = Some l)
      \/ (exists profile rest,
             cs = ArrayObject (NameObject "/ICCBased" :: profile :: rest)
             /\ getitem profile "/Alternate" = Ok cs' /\ lk' = lk)).
Proof.
  intros cs lk cs' m lk' H.
  unfold resolve_color_space in H.
  destruct (colorspace_fixes cs lk) as [[c l]|e] eqn:Fx; [|discriminate H].
  cbn [rbind fst snd] in H.
  destruct (lookup_mode c) as [m0|e] eqn:Lm; [|discriminate H].
  cbn [rbind] in H. injection H as -> -> ->.
  pose proof (lookup_mode_ok _ _ Lm) as (n & -> & An).
  split; [now exists n|]. split; [exact (img_modes_modes _ _ An)|].
  unfold colorspace_fixes in Fx.
  destruct cs as [s|z|items|d|d raw dec]; cbn in Fx;
    try (injection Fx as <- <-; left; now split);
    try discriminate Fx.
  destruct items as [|x rest]; [discriminate Fx|].
  cbn [array_tagged rbind] in Fx.
  destruct (eq_str x "/Indexed") eqn:Ix.
  - apply eq_str_true in Ix. subst x.
    destruct rest as [|base [|hival [|l [|]]]]; try discriminate Fx.
    cbn in Fx. injection Fx as <- <-. right. left.
    exists base, hival, l. cbn in An. injection An as <-.
    repeat split.
  - cbn [rbind fst snd array_tagged] in Fx.
    destruct (eq_str x "/ICCBased") eqn:Ic.
    + apply eq_str_true in Ic. subst x.
      destruct rest as [|profile rest]; [discriminate Fx|].
      right. right. exists profile, rest.
      destruct profile as [| | |d|d raw dec]; try discriminate Fx;
        cbn [getitem]; destruct (assoc "/Alternate" d);
        try discriminate Fx; injection Fx as <- <-; repeat split.
    + injection Fx as E _. discriminate E.
Qed.

Lemma resolve_color_space_inv_witness :
  exists n,
    Sample.rgb = NameObject n /\ assoc n img_modes = Some "RGB"%string.
Proof.
  apply (resolve_color_space_inv (Sample.icc (Some Sample.rgb)) None
           Sample.rgb "RGB" None).
  reflexivity.
Defined.

(** X8.  Colour spaces the script does not know.  A name outside
    [img_modes], such as [/Pattern], raises [KeyError].  An array whose
    first item is neither [/Indexed] nor [/ICCBased] ([/CalRGB], [/Lab],
    [/Separation], [/DeviceN]) raises [TypeError], an empty array
    [IndexError], an [/Indexed] array that has not exactly four items
    [ValueError], an [/ICCBased] array of one item [IndexError]. *)
Theorem unsupported_color_spaces : forall lk,
  (forall n, assoc n img_modes = None ->
             resolve_color_space (NameObject n) lk = Raise KeyError)
  /\ (forall x rest,
         eq_str x "/Indexed" = false -> eq_str x "/ICCBased" = false ->
         resolve_color_space (ArrayObject (x :: rest)) lk = Raise TypeError)
  /\ resolve_color_space (ArrayObject []) lk = Raise IndexError
  /\ (forall rest,
         List.length rest <> 3%nat ->
         resolve_color_space (ArrayObject (NameObject "/Indexed" :: rest)) lk
         = Raise ValueError)
  /\ resolve_color_space (ArrayObject [NameObject "/ICCBased"]) lk
     = Raise IndexError.
Proof.
  intros lk. split; [|split; [|split; [|split]]].
  - intros n H. unfold resolve_color_space, colorspace_fixes.
    cbn [array_tagged rbind fst snd lookup_mode]. now rewrite H.
  - intros x rest Hi Hc. unfold resolve_color_space, colorspace_fixes.
    cbn [array_tagged rbind fst snd]. rewrite Hi.
    cbn [rbind fst snd array_tagged]. rewrite Hc. reflexivity.
  - reflexivity.
  - intros rest H.
    destruct rest as [|a [|b [|c [|d rest]]]]; try reflexivity.
    now contradiction H.
  - reflexivity.
Qed.

Lemma unsupported_color_spaces_witness :
  resolve_color_space (NameObject "/Pattern") None = Raise KeyError
  /\ resolve_color_space
       (ArrayObject [NameObject "/Separation"; NameObject "/Spot";
                     NameObject "/DeviceCMYK"]) None = Raise TypeError
  /\ resolve_color_space
       (ArrayObject [NameObject "/Indexed"; NameObject "/DeviceRGB";
                     NumberObject 255]) None = Raise ValueError.
Proof.
  destruct (unsupported_color_spaces None) as (Hn & Ha & _ & Hi & _).
  split; [apply Hn; reflexivity|].
  split; [apply Ha; reflexivity|].
  apply Hi. cbn. discriminate.
Defined.

(** ** Images that cannot be written *)

Lemma image_info_missing : forall o lk k,
  In k ["/Width"; "/Height"; "/ColorSpace"]%string ->
  getitem o k = Raise KeyError ->
  (forall k', getitem o k' = Raise KeyError \/ exists v, getitem o k' = Ok v) ->
  image_info o lk = Raise KeyError.
Proof.
  intros o lk k Hin Hk Hd. unfold image_info.
  destruct (Hd "/Width"%string) as [E|[v E]]; rewrite E; [reflexivity|].
  cbn [rbind].
  destruct (Hd "/Height"%string) as [E'|[v' E']]; rewrite E'; [reflexivity|].
  cbn [rbind].
  destruct (Hd "/ColorSpace"%string) as [E''|[v'' E'']]; rewrite E'';
    [reflexivity|].
  cbn in Hin. destruct Hin as [<-|[<-|[<-|[]]]]; congruence.
Qed.

Lemma getitem_stream : forall d raw dec k,
  getitem (StreamObject d raw dec) k = Raise KeyError
  \/ exists v, getitem (StreamObject d raw dec) k = Ok v.
Proof.
  intros d raw dec k. cbn [getitem].
  destruct (assoc k d) as [v|]; [right; now exists v | now left].
Qed.

(** X9.  Missing keys.  The script reads [/Subtype] of every XObject, and
    [/Width], [/Height] and [/ColorSpace] of every image whatever its
    filter, then [/Filter], and for a fax image [/DecodeParms] and [/K].
    A stream that lacks one of them raises [KeyError] and writes nothing:
    before the name of the image is printed for the first four, after it
    for the others. *)
Theorem missing_key_raises : forall prefix folder i d raw dec st w,
  let o := StreamObject d raw dec in
  (assoc "/Subtype" d = None ->
   process_object prefix folder i o st w = (w, Raise KeyError))
  /\ (forall k,
         is_image o = true ->
         In k ["/Width"; "/Height"; "/ColorSpace"]%string ->
         assoc k d = None ->
         process_object prefix folder i o st w = (w, Raise KeyError))
  /\ (forall info,
         is_image o = true ->
         image_info o (lookup st) = Ok info ->
         assoc "/Filter" d = None ->
         process_object prefix folder i o st w
         = (announced prefix i (j st) w, Raise KeyError))
  /\ (forall info,
         is_image o = true ->
         image_info o (lookup st) = Ok info ->
         has_filter o "/CCITTFaxDecode" = true ->
         assoc "/DecodeParms" d = None ->
         process_object prefix folder i o st w
         = (announced prefix i (j st) w, Raise KeyError))
  /\ (forall info pd,
         is_image o = true ->
         image_info o (lookup st) = Ok info ->
         has_filter o "/CCITTFaxDecode" = true ->
         assoc "/DecodeParms" d = Some (DictionaryObject pd) ->
         assoc "/K" pd = None ->
         process_object prefix folder i o st w
         = (announced prefix i (j st) w, Raise KeyError)).
Proof.
  intros prefix folder i d raw dec st w o.
  split; [|split; [|split; [|split]]].
  - intros H. unfold process_object, bind, lift. subst o. cbn [getitem].
    now rewrite H.
  - intros k I Hin H.
    rewrite (process_object_image _ _ _ _ _ _ I).
    rewrite (image_info_missing o (lookup st) k Hin); [reflexivity| |].
    + subst o. cbn [getitem]. now rewrite H.
    + intros k'. apply getitem_stream.
  - intros info I E H.
    rewrite (process_object_image _ _ _ _ _ _ I), E.
    unfold save_by_filter, bind, lift. subst o. cbn [getitem].
    now rewrite H.
  - intros info I E F H.
    rewrite (process_object_image _ _ _ _ _ _ I), E.
    rewrite (save_by_filter_ccitt _ _ _ _ _ _ _ F).
    unfold save_ccitt, bind, lift. subst o. cbn [getitem].
    now rewrite H.
  - intros info pd I E F H K.
    rewrite (process_object_image _ _ _ _ _ _ I), E.
    rewrite (save_by_filter_ccitt _ _ _ _ _ _ _ F).
    unfold save_ccitt, bind, lift. subst o. cbn [getitem].
    rewrite H. cbn [getitem]. now rewrite K.
Qed.

Lemma missing_key_raises_witness :
  process_object "a_IMG_" Sample.out_folder 0
    (StreamObject
       [("/Subtype", NameObject "/Image"); ("/Width", NumberObject 2);
        ("/Height", NumberObject 2); ("/Filter", NameObject "/JPXDecode")]
       Sample.jpeg [])
    Sample.start empty_world
  = (empty_world, Raise KeyError).
Proof.
  refine (proj1 (proj2 (missing_key_raises "a_IMG_"%string Sample.out_folder
                          0%nat _ Sample.jpeg [] Sample.start empty_world))
            "/ColorSpace"%string _ _ _).
  - reflexivity.
  - cbn. tauto.
  - reflexivity.
Defined.

(** X10.  A [/Filter] that is not a name.  When [/Filter] holds an array,
    even an array of one known filter such as [[/DCTDecode]], no test of the
    filter chain matches: the image is reported as unrecognized, no file is
    written and its number is used up. *)
Theorem filter_array_unrecognized : forall prefix folder i o st w info fs,
  is_image o = true ->
  image_info o (lookup st) = Ok info ->
  getitem o "/Filter" = Ok (ArrayObject fs) ->
  process_object prefix folder i o st w
  = (printed "Unable to save image; unrecognized format!"
       (announced prefix i (j st) w),
     Ok {| j := S (j st); lookup := lookup_after info |}).
Proof.
  intros prefix folder i o st w info fs I E F.
  rewrite (process_object_image _ _ _ _ _ _ I), E.
  rewrite save_by_filter_unrecognized; [reflexivity|].
  unfold unrecognized_filter. now rewrite F.
Qed.

Lemma filter_array_unrecognized_witness :
  process_object "a_IMG_" Sample.out_folder 0
    (StreamObject
       [("/Subtype", NameObject "/Image"); ("/Width", NumberObject 2);
        ("/Height", NumberObject 2); ("/ColorSpace", Sample.rgb);
        ("/Filter", ArrayObject [NameObject "/DCTDecode"])]
       Sample.jpeg [])
    Sample.start empty_world
  = (printed "Unable to save image; unrecognized format!"
       (announced "a_IMG_" 0 1 empty_world),
     Ok {| j := 2; lookup := None |}).
Proof.
  apply (filter_array_unrecognized "a_IMG_" Sample.out_folder 0 _
           Sample.start empty_world
           {| size := (NumberObject 2, NumberObject 2);
              color_space := Sample.rgb;
              mode := "RGB";
              lookup_after := None |}
           [NameObject "/DCTDecode"]);
    reflexivity.
Defined.

Lemma save_by_filter_flate : forall p o m sz cs lk w,
  has_filter o "/FlateDecode" = true ->
  save_by_filter p o m sz cs lk w = save_flate p o m sz cs lk w.
Proof.
  intros p o m sz cs lk w H. unfold has_filter in H.
  unfold save_by_filter, bind, lift.
  destruct (getitem o "/Filter") as [v|e]; [|discriminate H].
  now rewrite H.
Qed.

Lemma process_object_flate_indexed :
  forall prefix folder i d raw dec st w width height ld lraw pal im,
    let o := StreamObject d raw dec in
    let table := StreamObject ld lraw pal in
    let p := img_path_of prefix folder i (j st) in
    is_image o = true ->
    has_filter o "/FlateDecode" = true ->
    image_info o (lookup st)
    = Ok {| size := (width, height);
            color_space := NameObject "/Indexed";
            mode := "P";
            lookup_after := Some table |} ->
    Image_frombytes "P" (width, height) dec = Ok im ->
    process_object prefix folder i o st w
    = match indexed_pil_error (announced prefix i (j st) w) im pal p with
      | Some e => (announced prefix i (j st) w, Raise e)
      | None =>
          (written p (Saved (convert (putpalette im pal) "RGB"))
             (announced prefix i (j st) w),
           Ok {| j := S (j st); lookup := Some table |})
      end.
Proof.
  intros prefix folder i d raw dec st w width height ld lraw pal im o table
    p I F E Him.
  rewrite (process_object_image _ _ _ _ _ _ I), E.
  cbn [mode size color_space lookup_after].
  rewrite (save_by_filter_flate _ _ _ _ _ _ _ F).
  unfold save_flate, bind, lift, ret, pil_call, write_file.
  subst o table.
  cbn [getData eq_str String.eqb Ascii.eqb Bool.eqb]. rewrite Him.
  unfold indexed_pil_error. cbn [first_error]. fold p.
  destruct (putpalette_error _ im pal); [reflexivity|].
  destruct (convert_error _ _ _); [reflexivity|].
  destruct (save_error _ _ _); reflexivity.
Qed.

Lemma process_object_sets_lookup :
  forall prefix folder i o st w w1 st1 base hival table,
    is_image o = true ->
    getitem o "/ColorSpace"
    = Ok (ArrayObject [NameObject "/Indexed"; base; hival; table]) ->
    process_object prefix folder i o st w = (w1, Ok st1) ->
    lookup st1 = Some table /\ j st1 = S (j st).
Proof.
  intros prefix folder i o st w w1 st1 base hival table I C E.
  rewrite (process_object_image _ _ _ _ _ _ I) in E.
  unfold image_info in E.
  destruct (getitem o "/Width") as [width|e]; [|discriminate E].
  destruct (getitem o "/Height") as [height|e]; [|discriminate E].
  rewrite C in E. cbn [rbind] in E.
  change (resolve_color_space
            (ArrayObject [NameObject "/Indexed"; base; hival; table])
            (lookup st))
    with (Ok (NameObject "/Indexed", "P"%string, Some table)) in E.
  cbn [rbind fst snd mode size color_space lookup_after] in E.
  destruct (save_by_filter _ _ _ _ _ _ _) as [w' [[]|e]];
    [|discriminate E].
  injection E as _ <-. now split.
Qed.

(** X11.  [lookup] outlives its image.  On a page, let an image whose
    colour space is an [/Indexed] array be processed without exception, and
    let the next object be a Flate image whose [/ColorSpace] is the bare name
    [/Indexed].  The second image then gets the table of the first as its
    palette: if PIL raises in [putpalette], [convert] or [save], that
    exception ends the loop and nothing is written for it; otherwise the file
    written for it is the image PIL made of its decoded bytes, with the
    decoded bytes of the first image's table as palette, converted to [RGB].
    When no image before it has set [lookup], the same image ends in an
    exception and writes nothing. *)
Theorem lookup_outlives_its_image :
  forall prefix folder i k1 o1 k2 d raw dec st w w1 st1 base hival ld lraw pal
         width height im,
    let o2 := StreamObject d raw dec in
    let table := StreamObject ld lraw pal in
    is_image o1 = true ->
    getitem o1 "/ColorSpace"
    = Ok (ArrayObject [NameObject "/Indexed"; base; hival; table]) ->
    process_object prefix folder i o1 st w = (w1, Ok st1) ->
    is_image o2 = true ->
    has_filter o2 "/FlateDecode" = true ->
    getitem o2 "/Width" = Ok width ->
    getitem o2 "/Height" = Ok height ->
    getitem o2 "/ColorSpace" = Ok (NameObject "/Indexed") ->
    Image_frombytes "P" (width, height) dec = Ok im ->
    xobject_loop prefix folder i [(k1, o1); (k2, o2)] st w
    = match indexed_pil_error w1 im pal
              (img_path_of prefix folder i (S (j st))) with
      | Some e => (announced prefix i (S (j st)) w1, Raise e)
      | None =>
          (written (img_path_of prefix folder i (S (j st)))
             (Saved (convert (putpalette im pal) "RGB"))
             (announced prefix i (S (j st)) w1),
           Ok {| j := S (S (j st)); lookup := Some table |})
      end
    /\ forall st0 w0,
         lookup st0 = None ->
         process_object prefix folder i o2 st0 w0
         = (announced prefix i (j st0) w0, Raise NameError).
Proof.
  intros prefix folder i k1 o1 k2 d raw dec st w w1 st1 base hival ld lraw
    pal width height im o2 table I1 C1 P1 I2 F2 Hw Hh C2 Him.
  destruct (process_object_sets_lookup _ _ _ _ _ _ _ _ _ _ _ I1 C1 P1)
    as [L1 J1].
  assert (Inf : forall lk,
             image_info o2 lk
             = Ok {| size := (width, height);
                     color_space := NameObject "/Indexed";
                     mode := "P";
                     lookup_after := lk |}).
  { intros lk. unfold image_info. rewrite Hw, Hh, C2. reflexivity. }
  split.
  - cbn [xobject_loop]. unfold bind. rewrite P1.
    pose proof (process_object_flate_indexed prefix folder i d raw dec st1 w1
                  width height ld lraw pal im I2 F2) as P2.
    cbn zeta in P2. fold o2 in P2. rewrite L1 in P2.
    specialize (P2 (Inf _) Him). rewrite J1 in P2. rewrite P2.
    unfold indexed_pil_error. cbn [pil announced printed].
    destruct (first_error _); reflexivity.
  - intros st0 w0 N.
    rewrite (process_object_image _ _ _ _ _ _ I2), Inf.
    cbn [mode size color_space lookup_after].
    rewrite (save_by_filter_flate _ _ _ _ _ _ _ F2), N.
    unfold save_flate, bind, lift. unfold o2. cbn [getData].
    rewrite Him. reflexivity.
Qed.

Lemma lookup_outlives_its_image_witness :
  xobject_loop "a_IMG_" Sample.out_folder 0
    [("/Im0"%string,
      Sample.image
        (ArrayObject [NameObject "/Indexed"; Sample.rgb; NumberObject 1;
                      StreamObject [] [] [xff; x00; x00; x00; x00; xff]])
        "/DCTDecode" Sample.jpeg);
     ("/Im1"%string,
      StreamObject (Sample.image_dict (NameObject "/Indexed") "/FlateDecode")
        [x78; x9c] [x00; x01; x01; x00])]
    Sample.start empty_world
  = (written (img_path_of "a_IMG_" Sample.out_folder 0 2)
       (Saved (convert
                 (putpalette (frombytes "P" 2 2 [x00; x01; x01; x00])
                    [xff; x00; x00; x00; x00; xff])
                 "RGB"))
       (announced "a_IMG_" 0 2
          (fst (process_object "a_IMG_" Sample.out_folder 0
                  (Sample.image
                     (ArrayObject
                        [NameObject "/Indexed"; Sample.rgb; NumberObject 1;
                         StreamObject [] []
                           [xff; x00; x00; x00; x00; xff]])
                     "/DCTDecode" Sample.jpeg)
                  Sample.start empty_world))),
     Ok {| j := 3;
           lookup := Some (StreamObject [] []
                             [xff; x00; x00; x00; x00; xff]) |}).
Proof.
  refine (proj1 (lookup_outlives_its_image "a_IMG_"%string Sample.out_folder
                   0%nat "/Im0"%string
                   (Sample.image
                      (ArrayObject
                         [NameObject "/Indexed"; Sample.rgb; NumberObject 1;
                          StreamObject [] []
                            [xff; x00; x00; x00; x00; xff]])
                      "/DCTDecode" Sample.jpeg)
                   "/Im1"%string
                   (Sample.image_dict (NameObject "/Indexed") "/FlateDecode")
                   [x78; x9c] [x00; x01; x01; x00] Sample.start empty_world
                   (fst (process_object "a_IMG_" Sample.out_folder 0
                           (Sample.image
                              (ArrayObject
                                 [NameObject "/Indexed"; Sample.rgb;
                                  NumberObject 1;
                                  StreamObject [] []
                                    [xff; x00; x00; x00; x00; xff]])
                              "/DCTDecode" Sample.jpeg)
                           Sample.start empty_world))
                   {| j := 2%nat;
                      lookup := Some (StreamObject [] []
                                        [xff; x00; x00; x00; x00; xff]) |}
                   Sample.rgb (NumberObject 1) [] []
                   [xff; x00; x00; x00; x00; xff]
                   (NumberObject 2) (NumberObject 2)
                   (frombytes "P" 2 2 [x00; x01; x01; x00])
                   _ _ _ _ _ _ _ _ _));
    reflexivity.
Defined.

(** ** The fax header, continued *)

Lemma parse_fax_header_bytes_app :
  forall width height img_size CCITT_group data,
    parse_tiff_header
      (fax_header_bytes width height img_size CCITT_group ++ data)
    = {| byte_order := [x49; x49];
         version := 42;
         ifd_offset := 8;
         ifd := fax_directory width height img_size CCITT_group;
         next_ifd := 0 |}.
Proof.
  intros w h s g data.
  set (hdr := fax_header_bytes w h s g ++ data).
  assert (E4 : Bytes.read_u32 4 hdr = 8) by reflexivity.
  assert (E8 : Bytes.read_u16 8 hdr = 8) by reflexivity.
  assert (Rw : Bytes.read_u32 18 hdr = w mod 4294967296)
    by (unfold hdr; read_var_field).
  assert (Rh : Bytes.read_u32 30 hdr = h mod 4294967296)
    by (unfold hdr; read_var_field).
  assert (Rg : Bytes.read_u32 54 hdr = g mod 4294967296)
    by (unfold hdr; read_var_field).
  assert (Rr : Bytes.read_u32 90 hdr = h mod 4294967296)
    by (unfold hdr; read_var_field).
  assert (Rs : Bytes.read_u32 102 hdr = s mod 4294967296)
    by (unfold hdr; read_var_field).
  unfold parse_tiff_header. rewrite E4.
  change (Z.to_nat 8) with 8%nat. rewrite E8.
  change (Z.to_nat 8) with 8%nat.
  cbn [read_entries Nat.add Nat.mul].
  unfold read_entry. cbn [Nat.add].
  rewrite Rw, Rh, Rg, Rr, Rs.
  reflexivity.
Qed.

Lemma strip_of_fax_file : forall width height img_size CCITT_group data,
  Bytes.slice 108 (List.length data)
    (fax_header_bytes width height img_size CCITT_group ++ data) = data.
Proof.
  intros w h s g data. unfold Bytes.slice.
  change (skipn 108 (fax_header_bytes w h s g ++ data)) with data.
  apply firstn_all.
Qed.

(** X12.  The file written for fax data points at its own data.  For a
    width, a height and a group that fit a signed 32-bit field and raw
    bytes shorter than 2^31, the header followed by the raw bytes reads back
    with the same directory, and the bytes found at the offset held by
    StripOffsets (tag 273), over the length held by StripByteCounts
    (tag 279), are the raw bytes. *)
Theorem fax_file_strip_is_data : forall width height CCITT_group data,
  -2147483648 <= width <= 2147483647 ->
  -2147483648 <= height <= 2147483647 ->
  -2147483648 <= CCITT_group <= 2147483647 ->
  Z.of_nat (List.length data) <= 2147483647 ->
  exists hdr off len,
    tiff_header_for_CCITT width height (Z.of_nat (List.length data))
      CCITT_group = Ok hdr
    /\ parse_tiff_header (hdr ++ data) = parse_tiff_header hdr
    /\ nth_error (ifd (parse_tiff_header (hdr ++ data))) 5
       = Some {| tag := 273; typ := 4; count := 1; value := off |}
    /\ nth_error (ifd (parse_tiff_header (hdr ++ data))) 7
       = Some {| tag := 279; typ := 4; count := 1; value := len |}
    /\ Bytes.slice (Z.to_nat off) (Z.to_nat len) (hdr ++ data) = data.
Proof.
  intros w h g data Hw Hh Hg Hs.
  exists (fax_header_bytes w h (Z.of_nat (List.length data)) g), 108,
    (Z.of_nat (List.length data)).
  split; [apply tiff_header_fits; apply fits_l_range; lia|].
  rewrite parse_fax_header_bytes_app, parse_fax_header_bytes.
  split; [reflexivity|]. split; [reflexivity|]. split.
  - cbn [ifd fax_directory nth_error]. rewrite Z.mod_small by lia.
    reflexivity.
  - rewrite Nat2Z.id. change (Z.to_nat 108) with 108%nat.
    apply strip_of_fax_file.
Qed.

Lemma fax_file_strip_is_data_witness :
  exists hdr off len,
    tiff_header_for_CCITT 1700 2200 (Z.of_nat (List.length Sample.jpeg)) 4
    = Ok hdr
    /\ parse_tiff_header (hdr ++ Sample.jpeg) = parse_tiff_header hdr
    /\ nth_error (ifd (parse_tiff_header (hdr ++ Sample.jpeg))) 5
       = Some {| tag := 273; typ := 4; count := 1; value := off |}
    /\ nth_error (ifd (parse_tiff_header (hdr ++ Sample.jpeg))) 7
       = Some {| tag := 279; typ := 4; count := 1; value := len |}
    /\ Bytes.slice (Z.to_nat off) (Z.to_nat len) (hdr ++ Sample.jpeg)
       = Sample.jpeg.
Proof.
  apply (fax_file_strip_is_data 1700 2200 4 Sample.jpeg); cbn; lia.
Defined.

(** X13.  The end of the header.  The last field is packed with ['h'], two
    bytes, so the header stops at byte 108 and the four bytes at offset 106
    of the file are the two zero bytes of that field followed by the first
    two bytes of the fax data: read as one 32-bit number they give 65536
    times the number the first two data bytes stand for, not 0. *)
Theorem terminator_runs_into_data : forall width height CCITT_group data,
  -2147483648 <= width <= 2147483647 ->
  -2147483648 <= height <= 2147483647 ->
  -2147483648 <= CCITT_group <= 2147483647 ->
  Z.of_nat (List.length data) <= 2147483647 ->
  exists hdr,
    tiff_header_for_CCITT width height (Z.of_nat (List.length data))
      CCITT_group = Ok hdr
    /\ Bytes.read_u16 106 (hdr ++ data) = 0
    /\ Bytes.read_u32 106 (hdr ++ data) = 65536 * Bytes.read_u16 0 data.
Proof.
  intros w h g data Hw Hh Hg Hs.
  exists (fax_header_bytes w h (Z.of_nat (List.length data)) g).
  split; [apply tiff_header_fits; apply fits_l_range; lia|].
  split; [reflexivity|].
  unfold Bytes.read_u32, Bytes.read_u16, Bytes.slice.
  change (skipn 106
            (fax_header_bytes w h (Z.of_nat (List.length data)) g ++ data))
    with (Bytes.of_Z 0 :: Bytes.of_Z (0 / 256) :: data).
  cbn [firstn skipn Bytes.le_value]. rewrite !to_of_Z.
  change (0 / 256) with 0. change (0 mod 256) with 0. lia.
Qed.

Lemma terminator_runs_into_data_witness :
  exists hdr,
    tiff_header_for_CCITT 1700 2200
      (Z.of_nat (List.length [x01; x02; x03])) 4 = Ok hdr
    /\ Bytes.read_u16 106 (hdr ++ [x01; x02; x03]) = 0
    /\ Bytes.read_u32 106 (hdr ++ [x01; x02; x03])
       = 65536 * Bytes.read_u16 0 [x01; x02; x03].
Proof.
  apply (terminator_runs_into_data 1700 2200 4 [x01; x02; x03]); cbn; lia.
Defined.

(** X14.  Negative sizes are packed, not refused.  A width from -2^31 to -1
    yields a header, and its ImageWidth field, read as the unsigned 32-bit
    number the field type LONG stands for, holds the width plus 2^32. *)
Theorem negative_width_wraps : forall width height img_size CCITT_group,
  -2147483648 <= width < 0 ->
  -2147483648 <= height <= 2147483647 ->
  -2147483648 <= img_size <= 2147483647 ->
  -2147483648 <= CCITT_group <= 2147483647 ->
  exists hdr,
    tiff_header_for_CCITT width height img_size CCITT_group = Ok hdr
    /\ nth_error (ifd (parse_tiff_header hdr)) 0
       = Some {| tag := 256; typ := 4; count := 1;
                 value := width + 4294967296 |}.
Proof.
  intros w h s g Hw Hh Hs Hg.
  exists (fax_header_bytes w h s g).
  split; [apply tiff_header_fits; apply fits_l_range; lia|].
  rewrite parse_fax_header_bytes. cbn [ifd fax_directory nth_error].
  do 2 f_equal.
  rewrite <- (Z.mod_small (w + 4294967296) 4294967296) by lia.
  replace (w + 4294967296) with (w + 1 * 4294967296) by lia.
  now rewrite Z.mod_add.
Qed.

Lemma negative_width_wraps_witness :
  exists hdr,
    tiff_header_for_CCITT (-1) 50 200 4 = Ok hdr
    /\ nth_error (ifd (parse_tiff_header hdr)) 0
       = Some {| tag := 256; typ := 4; count := 1;
                 value := -1 + 4294967296 |}.
Proof. apply (negative_width_wraps (-1) 50 200 4); lia. Defined.

Lemma mod_2_32_inj : forall a b,
  -2147483648 <= a <= 2147483647 ->
  -2147483648 <= b <= 2147483647 ->
  a mod 4294967296 = b mod 4294967296 -> a = b.
Proof.
  intros a b Ha Hb E.
  pose proof (Z.div_mod a 4294967296 ltac:(lia)) as Da.
  pose proof (Z.div_mod b 4294967296 ltac:(lia)) as Db.
  pose proof (Z.mod_pos_bound a 4294967296 ltac:(lia)) as Ba.
  pose proof (Z.mod_pos_bound b 4294967296 ltac:(lia)) as Bb.
  rewrite E in Da. lia.
Qed.

(** X15.  The header keeps its arguments apart.  Two calls whose arguments
    fit a signed 32-bit field return the same header only for the same
    width, height, byte count and group. *)
Theorem fax_header_inj : forall w h s g w' h' s' g' hdr,
  tiff_header_for_CCITT w h s g = Ok hdr ->
  tiff_header_for_CCITT w' h' s' g' = Ok hdr ->
  w = w' /\ h = h' /\ s = s' /\ g = g'.
Proof.
  intros w h s g w' h' s' g' hdr H H'.
  assert (R : forall a b c d x,
             tiff_header_for_CCITT a b c d = Ok x ->
             (Struct.fits_l a = true /\ Struct.fits_l b = true
              /\ Struct.fits_l c = true /\ Struct.fits_l d = true)
             /\ x = fax_header_bytes a b c d).
  { intros a b c d x Hx.
    destruct (Struct.fits_l a && Struct.fits_l b && Struct.fits_l c
              && Struct.fits_l d) eqn:E.
    - apply andb_true_iff in E as [E Fd].
      apply andb_true_iff in E as [E Fc].
      apply andb_true_iff in E as [Fa Fb].
      rewrite tiff_header_fits in Hx by assumption.
      injection Hx as <-. auto.
    - rewrite tiff_header_unfit in Hx by assumption. discriminate Hx. }
  destruct (R _ _ _ _ _ H) as ((Fw & Fh & Fs & Fg) & ->).
  destruct (R _ _ _ _ _ H') as ((Fw' & Fh' & Fs' & Fg') & E).
  apply (f_equal parse_tiff_header) in E.
  rewrite !parse_fax_header_bytes in E.
  injection E as Ew Eh Eg _ Es.
  unfold Struct.fits_l in *.
  repeat split; apply mod_2_32_inj; (assumption || lia).
Qed.

Lemma fax_header_inj_witness :
  100 = 100 /\ 50 = 50 /\ 200 = 200 /\ 4 = 4.
Proof.
  apply (fax_header_inj 100 50 200 4 100 50 200 4
           (fax_header_bytes 100 50 200 4));
    reflexivity.
Defined.

(** ** How many files a page gives *)

Lemma save_by_filter_ok : forall p o m sz cs lk w w',
  save_by_filter p o m sz cs lk w = (w', Ok tt) ->
  if known_filter o
  then exists c, files w' = files w ++ [(p, c)]
  else files w' = files w.
Proof.
  intros p o m sz cs lk w w'.
  unfold known_filter, known_filters, save_by_filter,
    save_passthrough, save_ccitt, bind, lift, ret, write_file, print.
  cbn [existsb].
  destruct (getitem o "/Filter") as [f|e]; [|discriminate].
  destruct (eq_str f "/FlateDecode"); cbn [orb].
  { intros E. apply save_flate_outcome in E.
    destruct E as [(e & E & _)|(_ & im & ->)]; [discriminate E|].
    eexists; reflexivity. }
  destruct (eq_str f "/DCTDecode"); cbn [orb].
  { destruct (get_data o) as [data|e]; [|discriminate].
    intros E; injection E as <-. eexists; reflexivity. }
  destruct (eq_str f "/JPXDecode"); cbn [orb].
  { destruct (get_data o) as [data|e]; [|discriminate].
    intros E; injection E as <-. eexists; reflexivity. }
  destruct (eq_str f "/CCITTFaxDecode"); cbn [orb].
  { destruct (getitem o "/DecodeParms") as [parms|e]; [|discriminate].
    destruct (getitem parms "/K") as [k|e]; [|discriminate].
    destruct (getitem o "/Width") as [width|e]; [|discriminate].
    destruct (getitem o "/Height") as [height|e]; [|discriminate].
    destruct (get_data o) as [data|e]; [|discriminate].
    destruct (tiff_header_for_CCITT_args _ _ _ _) as [hdr|e];
      [|discriminate].
    intros E; injection E as <-. eexists; reflexivity. }
  intros E; injection E as <-. reflexivity.
Qed.

Lemma process_object_ok_length : forall prefix folder i o st w w' st',
  process_object prefix folder i o st w = (w', Ok st') ->
  List.length (files w')
  = (List.length (files w)
     + if is_image o && known_filter o then 1 else 0)%nat.
Proof.
  intros prefix folder i o st w w' st' E.
  destruct (is_image o) eqn:I; cbn [andb].
  - rewrite (process_object_image _ _ _ _ _ _ I) in E.
    destruct (image_info o (lookup st)) as [info|e]; [|discriminate E].
    destruct (save_by_filter _ _ _ _ _ _ _) as [w1 [[]|e]] eqn:S;
      [|discriminate E].
    injection E as <- _. apply save_by_filter_ok in S.
    destruct (known_filter o).
    + destruct S as [c ->]. rewrite length_app. reflexivity.
    + rewrite S. cbn. lia.
  - destruct (process_object_other _ _ _ _ _ _ _ _ I E) as [-> _]. lia.
Qed.

(** X16.  Files and numbers on a page.  When the loop over a page's
    objects ends without exception, it has added exactly one file for each
    image whose [/Filter] is one of the four known names and none for any
    other object, while the image number has advanced over every image; so
    the files added are at most as many as the numbers used. *)
Theorem one_file_per_known_image : forall prefix folder i xs st w w' st',
  xobject_loop prefix folder i xs st w = (w', Ok st') ->
  List.length (files w') = (List.length (files w) + count_saved xs)%nat
  /\ (count_saved xs <= count_images xs)%nat
  /\ (List.length (files w') - List.length (files w) <= j st' - j st)%nat.
Proof.
  intros prefix folder i xs.
  assert (A : forall st w w' st',
             xobject_loop prefix folder i xs st w = (w', Ok st') ->
             List.length (files w')
             = (List.length (files w) + count_saved xs)%nat
             /\ (count_saved xs <= count_images xs)%nat
             /\ j st' = (j st + count_images xs)%nat).
  { induction xs as [|[k o] xs IH]; intros st w w' st' E.
    - cbn in E. injection E as <- <-. cbn. lia.
    - cbn [xobject_loop] in E. unfold bind in E.
      destruct (process_object prefix folder i o st w) as [w1 [st1|e]] eqn:P;
        [|discriminate E].
      pose proof (process_object_ok_length _ _ _ _ _ _ _ _ P) as L.
      pose proof (process_object_j _ _ _ _ _ _ _ _ P) as J.
      destruct (IH _ _ _ _ E) as (L' & C' & J').
      unfold count_saved, count_images in *. cbn [filter snd].
      destruct (is_image o); cbn [andb] in *;
        [destruct (known_filter o)|]; cbn [List.length] in *; lia. }
  intros st w w' st' E. destruct (A _ _ _ _ E) as (L & C & J).
  split; [exact L|]. split; [exact C|]. lia.
Qed.

Lemma one_file_per_known_image_witness :
  List.length
    (files (fst (xobject_loop "b_IMG_" Sample.out_folder 0
                   [("/Im0"%string, Sample.odd);
                    ("/Im1"%string, Sample.good)]
                   Sample.start empty_world)))
  = (List.length (files empty_world)
     + count_saved [("/Im0"%string, Sample.odd);
                    ("/Im1"%string, Sample.good)])%nat.
Proof.
  apply (one_file_per_known_image "b_IMG_" Sample.out_folder 0
           [("/Im0"%string, Sample.odd); ("/Im1"%string, Sample.good)]
           Sample.start empty_world
           (fst (xobject_loop "b_IMG_" Sample.out_folder 0
                   [("/Im0"%string, Sample.odd);
                    ("/Im1"%string, Sample.good)]
                   Sample.start empty_world))
           {| j := 3; lookup := None |}).
  reflexivity.
Defined.

(** ** Flate images *)

(** X17.  An Indexed Flate image.  For a Flate stream whose colour space
    is an [/Indexed] array with a stream as its table, PIL makes an image in
    mode [P] of the decoded bytes ([getData()], not [_data]), and the script
    calls [putpalette] with the decoded bytes of the table, [convert('RGB')]
    and [save], in this order.  If one of the three raises, that exception
    ends the image and no file is written; otherwise the converted image is
    the file written.  The base colour space and [hival] play no part, and
    [lookup] is left holding the table. *)
Theorem indexed_flate_image :
  forall prefix folder i d raw dec st w width height base hival ld lraw pal
         im,
    let o := StreamObject d raw dec in
    let table := StreamObject ld lraw pal in
    let p := img_path_of prefix folder i (j st) in
    is_image o = true ->
    has_filter o "/FlateDecode" = true ->
    getitem o "/Width" = Ok width ->
    getitem o "/Height" = Ok height ->
    getitem o "/ColorSpace"
    = Ok (ArrayObject [NameObject "/Indexed"; base; hival; table]) ->
    Image_frombytes "P" (width, height) dec = Ok im ->
    process_object prefix folder i o st w
    = match indexed_pil_error w im pal p with
      | Some e => (announced prefix i (j st) w, Raise e)
      | None =>
          (written p (Saved (convert (putpalette im pal) "RGB"))
             (announced prefix i (j st) w),
           Ok {| j := S (j st); lookup := Some table |})
      end.
Proof.
  intros prefix folder i d raw dec st w width height base hival ld lraw pal
    im o table p I F Hw Hh Hc Him.
  pose proof (process_object_flate_indexed prefix folder i d raw dec st w
                width height ld lraw pal im I F) as P.
  cbn zeta in P. fold o p in P. rewrite P; [reflexivity| |exact Him].
  unfold image_info. rewrite Hw, Hh, Hc. reflexivity.
Qed.

Lemma indexed_flate_image_witness :
  process_object "a_IMG_" Sample.out_folder 0
    (StreamObject
       (Sample.image_dict
          (ArrayObject [NameObject "/Indexed"; Sample.rgb; NumberObject 1;
                        StreamObject [] []
                          [xff; x00; x00; x00; x00; xff]])
          "/FlateDecode")
       [x78; x9c] [x00; x01; x01; x00])
    Sample.start empty_world
  = (written (img_path_of "a_IMG_" Sample.out_folder 0 1)
       (Saved (convert
                 (putpalette (frombytes "P" 2 2 [x00; x01; x01; x00])
                    [xff; x00; x00; x00; x00; xff])
                 "RGB"))
       (announced "a_IMG_" 0 1 empty_world),
     Ok {| j := 2;
           lookup := Some (StreamObject [] []
                             [xff; x00; x00; x00; x00; xff]) |})
  /\ process_object "a_IMG_" Sample.out_folder 0
       (StreamObject
          (Sample.image_dict
             (ArrayObject [NameObject "/Indexed"; Sample.rgb;
                           NumberObject 255;
                           StreamObject [] [] (List.repeat xff 1000)])
             "/FlateDecode")
          [x78; x9c] [x00; x01; x01; x00])
       Sample.start
       {| files := []; stdout := []; dirs := [];
          pil := pil_short_palettes |}
     = (announced "a_IMG_" 0 1
          {| files := []; stdout := []; dirs := [];
             pil := pil_short_palettes |},
        Raise ValueError).
Proof.
  split.
  - apply (indexed_flate_image "a_IMG_" Sample.out_folder 0
             (Sample.image_dict
                (ArrayObject [NameObject "/Indexed"; Sample.rgb;
                              NumberObject 1;
                              StreamObject [] []
                                [xff; x00; x00; x00; x00; xff]])
                "/FlateDecode")
             [x78; x9c] [x00; x01; x01; x00] Sample.start empty_world
             (NumberObject 2) (NumberObject 2) Sample.rgb (NumberObject 1)
             [] [] [xff; x00; x00; x00; x00; xff]
             (frombytes "P" 2 2 [x00; x01; x01; x00]));
      reflexivity.
  - apply (indexed_flate_image "a_IMG_" Sample.out_folder 0
             (Sample.image_dict
                (ArrayObject [NameObject "/Indexed"; Sample.rgb;
                              NumberObject 255;
                              StreamObject [] [] (List.repeat xff 1000)])
                "/FlateDecode")
             [x78; x9c] [x00; x01; x01; x00] Sample.start
             {| files := []; stdout := []; dirs := [];
                pil := pil_short_palettes |}
             (NumberObject 2) (NumberObject 2) Sample.rgb (NumberObject 255)
             [] [] (List.repeat xff 1000)
             (frombytes "P" 2 2 [x00; x01; x01; x00]));
      reflexivity.
Defined.
